(** * The operation authorization and execution pipeline of mysql-mcp-server

    A shallow embedding of [src/services/query-parser.ts],
    [src/services/query-executor.ts], [src/services/mysql-client.ts],
    [src/utils/formatters.ts], [src/utils/error-handlers.ts] and
    [src/tools/query-tool.ts], with the properties the specification states
    about them.

    JavaScript strings are sequences of UTF-16 code units; they are modelled
    as lists of code units, so that [length], [substring], [trim], [split]
    and the regular expressions of the source act on the same positions as
    they do in the program. *)

From Stdlib Require Import List NArith ZArith Bool Ascii String Lia.
Import ListNotations.

Local Open Scope N_scope.
Local Open Scope list_scope.

(* ================================================================== *)
(** * JavaScript strings *)
(* ================================================================== *)

Module Js.

(** A code unit, and a string. *)
Definition unit := N.
Definition str := list unit.

(** An ASCII literal of the source, as code units. *)
Fixpoint lit (s : string) : str :=
  match s with
  | EmptyString => []
  | String c t => N_of_ascii c :: lit t
  end.

(** [s.length], as a number. *)
Definition len (s : str) : N := N.of_nat (List.length s).

(** [a === b] on strings. *)
Fixpoint eqb (a b : str) : bool :=
  match a, b with
  | [], [] => true
  | x :: a', y :: b' => (x =? y) && eqb a' b'
  | _, _ => false
  end.

(** [s.startsWith(p)]. *)
Fixpoint startsWith (s p : str) {struct p} : bool :=
  match p, s with
  | [], _ => true
  | y :: p', x :: s' => (x =? y) && startsWith s' p'
  | _ :: _, [] => false
  end.

(** [s.includes(p)]. *)
Fixpoint includes (s p : str) : bool :=
  startsWith s p ||
  match s with
  | [] => false
  | _ :: t => includes t p
  end.

(** [s.substring(0, n)] for [0 <= n]. *)
Definition substring0 (s : str) (n : N) : str := firstn (N.to_nat n) s.

(** The class [\s] of regular expressions, which is also the set of
    characters [trim] removes: WhiteSpace and LineTerminator code points. *)
Definition is_ws (c : unit) : bool :=
  ((9 <=? c) && (c <=? 13)) || (c =? 32) || (c =? 160) || (c =? 5760) ||
  ((8192 <=? c) && (c <=? 8202)) || (c =? 8232) || (c =? 8233) ||
  (c =? 8239) || (c =? 8287) || (c =? 12288) || (c =? 65279).

(** The class [\w] (no [i] or [u] flag): [A-Za-z0-9_]. *)
Definition is_word (c : unit) : bool :=
  ((65 <=? c) && (c <=? 90)) || ((97 <=? c) && (c <=? 122)) ||
  ((48 <=? c) && (c <=? 57)) || (c =? 95).

Fixpoint dropWhile (p : unit -> bool) (s : str) : str :=
  match s with
  | [] => []
  | c :: t => if p c then dropWhile p t else s
  end.

Fixpoint takeWhile (p : unit -> bool) (s : str) : str :=
  match s with
  | [] => []
  | c :: t => if p c then c :: takeWhile p t else []
  end.

(** The first whitespace-delimited token: the text before the first
    whitespace character. *)
Definition first_word (s : str) : str := takeWhile (fun c => negb (is_ws c)) s.

(** [s.trim()]. *)
Definition trimStart (s : str) : str := dropWhile is_ws s.
Definition trimEnd (s : str) : str := rev (dropWhile is_ws (rev s)).
Definition trim (s : str) : str := trimEnd (trimStart s).

(** [s.split(sep)] for a one-character separator: the segments between the
    separators, empty ones included; never the empty array. *)
Fixpoint split (sep : unit) (s : str) : list str :=
  match s with
  | [] => [[]]
  | c :: t =>
      if c =? sep then [] :: split sep t
      else match split sep t with
           | seg :: rest => (c :: seg) :: rest
           | [] => [[c]]
           end
  end.

(** [s.split(/\s+/)]: the segments between the maximal whitespace runs.  A
    string that starts (ends) with whitespace gets an empty first (last)
    segment.  [in_run] tells that the previous character was whitespace. *)
Fixpoint split_ws_from (in_run : bool) (s : str) : list str :=
  match s with
  | [] => [[]]
  | c :: t =>
      if is_ws c then
        if in_run then split_ws_from true t else [] :: split_ws_from true t
      else match split_ws_from false t with
           | seg :: rest => (c :: seg) :: rest
           | [] => [[c]]
           end
  end.

Definition split_ws (s : str) : list str := split_ws_from false s.

(** [s.replace(re, repl)] for a global regular expression [re] that never
    matches the empty string.  [matcher s] is the length of the match of
    [re] that starts at the head of [s], if there is one.  The scan goes
    left to right; after a match it resumes behind the match.  [skip]
    counts the characters of the current match still to be dropped. *)
Fixpoint replace_from (matcher : str -> option nat) (repl : str)
    (skip : nat) (s : str) : str :=
  match s with
  | [] => []
  | c :: t =>
      match skip with
      | S k => replace_from matcher repl k t
      | O =>
          match matcher s with
          | Some (S n) => repl ++ replace_from matcher repl n t
          | _ => c :: replace_from matcher repl O t
          end
      end
  end.

Definition replace_all (matcher : str -> option nat) (repl : str) (s : str) : str :=
  replace_from matcher repl O s.

(** Decimal digits of a natural number, least significant first; [fuel]
    bounds the number of digits. *)
Fixpoint digits_rev (fuel : nat) (n : N) : str :=
  match fuel with
  | O => []
  | S f => (48 + n mod 10) :: (if n / 10 =? 0 then [] else digits_rev f (n / 10))
  end.

(** The decimal numeral of a natural number, every digit written.  It is
    [String(n)] for the numbers that are integers up to 2^53 - 1: lengths,
    counts, and the times and timeouts in milliseconds.  Above that a
    number is a double that [String] prints with the fewest digits that
    read back as the same double (and with an exponent from 10^21 on),
    which is not this function.  A number of [k] bits has at most [k]
    digits. *)
Definition of_N (n : N) : str := rev (digits_rev (S (N.to_nat (N.size n))) n).

(** [Number.MAX_SAFE_INTEGER]. *)
Definition MAX_SAFE_INTEGER : N := 2 ^ 53 - 1.

(** The number a list of digits denotes, least significant first. *)
Definition value_rev (ds : str) : N := fold_right (fun c acc => (c - 48) + 10 * acc) 0 ds.

(** The number a decimal numeral denotes. *)
Definition to_N (s : str) : N := fold_left (fun acc c => 10 * acc + (c - 48)) s 0.

(** The longest string the language allows has 2^53 - 1 code units. *)
Definition MAX_LENGTH : N := 2 ^ 53 - 1.

(** [String.prototype.toUpperCase] on text that is all ASCII: the letters
    [a-z] become [A-Z], every other ASCII character is kept.  The pipeline
    itself is stated over the built-in, which it takes as a parameter; this
    function evaluates it on ASCII inputs. *)
Definition upper_unit (c : unit) : unit :=
  if (97 <=? c) && (c <=? 122) then c - 32 else c.

Definition toUpperCase_ascii (s : str) : str := map upper_unit s.

End Js.

Definition jsstring : Type := Js.str.
Notation "'js' s" := (Js.lit s%string) (at level 9, s at level 0, only parsing).

(* ================================================================== *)
(** * [src/types.ts] *)
(* ================================================================== *)

Inductive OperationMode := READ_ONLY | WRITE_ENABLED.

Inductive QueryType :=
  | SELECT | SHOW | DESCRIBE | EXPLAIN | USE
  | INSERT | UPDATE | DELETE | REPLACE
  | CREATE | ALTER | DROP | TRUNCATE
  | START_TRANSACTION | COMMIT | ROLLBACK | SAVEPOINT
  | GRANT | REVOKE | FLUSH | KILL | LOAD_DATA | SET
  | UNKNOWN.

(** The string value of an enumeration member. *)
Definition QueryType_value (t : QueryType) : jsstring :=
  match t with
  | SELECT => js "SELECT" | SHOW => js "SHOW" | DESCRIBE => js "DESCRIBE"
  | EXPLAIN => js "EXPLAIN" | USE => js "USE"
  | INSERT => js "INSERT" | UPDATE => js "UPDATE" | DELETE => js "DELETE"
  | REPLACE => js "REPLACE"
  | CREATE => js "CREATE" | ALTER => js "ALTER" | DROP => js "DROP"
  | TRUNCATE => js "TRUNCATE"
  | START_TRANSACTION => js "START_TRANSACTION" | COMMIT => js "COMMIT"
  | ROLLBACK => js "ROLLBACK" | SAVEPOINT => js "SAVEPOINT"
  | GRANT => js "GRANT" | REVOKE => js "REVOKE" | FLUSH => js "FLUSH"
  | KILL => js "KILL" | LOAD_DATA => js "LOAD_DATA" | SET => js "SET"
  | UNKNOWN => js "UNKNOWN"
  end.

Definition OperationMode_value (m : OperationMode) : jsstring :=
  match m with
  | READ_ONLY => js "READ_ONLY"
  | WRITE_ENABLED => js "WRITE_ENABLED"
  end.

(** [a === b] on enumeration members compares their string values. *)
Definition QueryType_eqb (a b : QueryType) : bool :=
  Js.eqb (QueryType_value a) (QueryType_value b).

Definition OperationMode_eqb (a b : OperationMode) : bool :=
  Js.eqb (OperationMode_value a) (OperationMode_value b).

Record ParseResult := {
  queryType : QueryType;
  allowed : bool;
  reason : option jsstring;
  suggestion : option jsstring
}.

(* ================================================================== *)
(** * [src/services/query-parser.ts]: the policy *)
(* ================================================================== *)

Definition ALWAYS_ALLOWED : list QueryType := [SELECT; SHOW; DESCRIBE; EXPLAIN].

Definition NEVER_ALLOWED : list QueryType :=
  [DROP; TRUNCATE; GRANT; REVOKE; FLUSH; KILL; LOAD_DATA].

Definition WRITE_MODE_ALLOWED : list QueryType :=
  [INSERT; UPDATE; DELETE; REPLACE; START_TRANSACTION; COMMIT; ROLLBACK; SAVEPOINT].

(** [xs.includes(x)]. *)
Definition includes (xs : list QueryType) (x : QueryType) : bool :=
  existsb (QueryType_eqb x) xs.

Definition isAllowed (queryType : QueryType) (mode : OperationMode) : bool :=
  if includes ALWAYS_ALLOWED queryType then true
  else if includes NEVER_ALLOWED queryType then false
  else if OperationMode_eqb mode WRITE_ENABLED && includes WRITE_MODE_ALLOWED queryType
       then true
  else false.

(** The decision order as the specification words it: the never-allowed
    set is consulted first. *)
Module PolicySpec.

Definition AlwaysAllowed (k : QueryType) : Prop :=
  k = SELECT \/ k = SHOW \/ k = DESCRIBE \/ k = EXPLAIN.

Definition NeverAllowed (k : QueryType) : Prop :=
  k = DROP \/ k = TRUNCATE \/ k = GRANT \/ k = REVOKE \/ k = FLUSH \/
  k = KILL \/ k = LOAD_DATA.

Definition WriteModeAllowed (k : QueryType) : Prop :=
  k = INSERT \/ k = UPDATE \/ k = DELETE \/ k = REPLACE \/
  k = START_TRANSACTION \/ k = COMMIT \/ k = ROLLBACK \/ k = SAVEPOINT.

Inductive verdict (k : QueryType) (m : OperationMode) : bool -> Prop :=
  | step1_never : NeverAllowed k -> verdict k m false
  | step2_always : ~ NeverAllowed k -> AlwaysAllowed k -> verdict k m true
  | step3_write :
      ~ NeverAllowed k -> ~ AlwaysAllowed k ->
      m = WRITE_ENABLED -> WriteModeAllowed k -> verdict k m true
  | step4_default :
      ~ NeverAllowed k -> ~ AlwaysAllowed k ->
      ~ (m = WRITE_ENABLED /\ WriteModeAllowed k) -> verdict k m false.

End PolicySpec.

(* ================================================================== *)
(** * [src/constants.ts] *)
(* ================================================================== *)

Definition CHARACTER_LIMIT : N := 25000.
Definition LOG_QUERY_TRUNCATE_LENGTH : N := 200.

(* ================================================================== *)
(** * [src/utils/logger.ts] *)
(* ================================================================== *)

(** The line [logInfo] writes to the error stream for a message, where
    [timestamp] is what [getTimestamp()] gives at that moment. *)
Definition logInfo (timestamp message : jsstring) : jsstring :=
  js "[INFO] " ++ timestamp ++ js " - " ++ message.

Definition truncateForLog (s : jsstring) (maxLength : N) : jsstring :=
  if Js.len s <=? maxLength then s
  else Js.substring0 s maxLength ++ js "...".

(** The message [logQuery] hands to [logInfo]; the audit log of a request
    is the list of these messages, in the order they are written. *)
Definition logQuery (query : jsstring) (mode : OperationMode) (allowed : bool)
    (queryType : option QueryType) : jsstring :=
  let status := if allowed then js "EXECUTED" else js "BLOCKED" in
  let typeInfo :=
    match queryType with
    | Some t => js " (" ++ QueryType_value t ++ js ")"
    | None => []
    end in
  let truncatedQuery := truncateForLog query LOG_QUERY_TRUNCATE_LENGTH in
  js "Query " ++ status ++ js " [" ++ OperationMode_value mode ++ js "]" ++
  typeInfo ++ js ": " ++ truncatedQuery.

(* ================================================================== *)
(** * [src/services/query-parser.ts]: normalizer and splitter *)
(* ================================================================== *)

Definition LF : Js.unit := 10.
Definition SPACE : Js.unit := 32.
Definition SEMICOLON : Js.unit := 59.

Definition not_LF (c : Js.unit) : bool := negb (c =? LF).

(** [/--[^\n]*/]: two dashes and everything up to the end of the line. *)
Definition re_line_comment (s : jsstring) : option nat :=
  if Js.startsWith s (js "--")
  then Some (2 + List.length (Js.takeWhile not_LF (skipn 2 s)))%nat
  else None.

(** Offset of the first [*/] in [s]. *)
Fixpoint find_close (s : jsstring) : option nat :=
  match s with
  | [] => None
  | _ :: t =>
      if Js.startsWith s (js "*/") then Some O
      else option_map S (find_close t)
  end.

(** [/\/\*[\s\S]*?\*\//]: an opener, the shortest text up to a closer, and
    the closer.  An opener with no closer behind it is no match. *)
Definition re_block_comment (s : jsstring) : option nat :=
  if Js.startsWith s (js "/*")
  then option_map (fun n => 2 + n + 2)%nat (find_close (skipn 2 s))
  else None.

(** [/\s+/]: a maximal run of whitespace. *)
Definition re_ws_run (s : jsstring) : option nat :=
  match List.length (Js.takeWhile Js.is_ws s) with
  | O => None
  | n => Some n
  end.

Definition removeComments (query : jsstring) : jsstring :=
  let result := Js.replace_all re_line_comment [] query in
  let result := Js.replace_all re_block_comment [] result in
  result.

Definition normalizeWhitespace (query : jsstring) : jsstring :=
  let result := Js.trim query in
  let result := Js.replace_all re_ws_run [SPACE] result in
  result.

Definition normalizeQuery (query : jsstring) : jsstring :=
  let normalized := removeComments query in
  let normalized := normalizeWhitespace normalized in
  normalized.

(** The two passes of [removeComments], each on its own. *)
Definition strip_line_comments (s : jsstring) : jsstring :=
  Js.replace_all re_line_comment [] s.

Definition strip_block_comments (s : jsstring) : jsstring :=
  Js.replace_all re_block_comment [] s.

Definition nonempty (s : jsstring) : bool := 0 <? Js.len s.

Definition splitStatements (query : jsstring) : list jsstring :=
  filter nonempty (map Js.trim (Js.split SEMICOLON query)).

(* ================================================================== *)
(** * [src/services/query-parser.ts]: classifier *)
(* ================================================================== *)

Definition is_word_opt (o : option Js.unit) : bool :=
  match o with
  | Some c => Js.is_word c
  | None => false
  end.

(** [\b] between the character [prev] (none at the start of the text) and
    the head of [s] (none at its end). *)
Definition boundary (prev : option Js.unit) (s : jsstring) : bool :=
  xorb (is_word_opt prev) (is_word_opt (hd_error s)).

Definition last_unit (w : jsstring) : option Js.unit := hd_error (rev w).

(** [\bw\b] at the head of [s]. *)
Definition whole_word (prev : option Js.unit) (w s : jsstring) : bool :=
  boundary prev s && Js.startsWith s w &&
  boundary (last_unit w) (skipn (List.length w) s).

Definition DML_KEYWORDS : list jsstring :=
  [js "SELECT"; js "INSERT"; js "UPDATE"; js "DELETE"].

(** [\b(SELECT|INSERT|UPDATE|DELETE)\b] at the head of [s]. *)
Definition dml_here (prev : option Js.unit) (s : jsstring) : option jsstring :=
  find (fun kw => whole_word prev kw s) DML_KEYWORDS.

(** A search tries the positions of the text from left to right and stops
    at the first at which [here] matches; [prev] is the character before
    the position.  Both the lazy star of the expression and the search for
    the start of a match proceed so. *)
Fixpoint first_match {A : Type} (here : option Js.unit -> jsstring -> option A)
    (prev : option Js.unit) (s : jsstring) : option A :=
  match here prev s with
  | Some a => Some a
  | None =>
      match s with
      | [] => None
      | c :: t => first_match here (Some c) t
      end
  end.

(** [[\s\S]*?\b(SELECT|INSERT|UPDATE|DELETE)\b] at the head of [s]. *)
Definition scan_dml (prev : option Js.unit) (s : jsstring) : option jsstring :=
  first_match dml_here prev s.

Definition WITH : jsstring := js "WITH".

(** The whole expression anchored at the head of [s]. *)
Definition cte_here (prev : option Js.unit) (s : jsstring) : option jsstring :=
  if whole_word prev WITH s
  then scan_dml (last_unit WITH) (skipn (List.length WITH) s)
  else None.

(** [upper.match(/\bWITH\b[\s\S]*?\b(SELECT|INSERT|UPDATE|DELETE)\b/)]: the
    first start position at which the expression matches; the result is
    the captured group. *)
Definition match_cte (upper : jsstring) : option jsstring :=
  first_match cte_here None upper.

(** The character before offset [i] of [text], and the DML keyword that
    stands as a whole word at offset [i], if one does. *)
Definition prev_at (text : jsstring) (i : nat) : option Js.unit :=
  last_unit (firstn i text).

Definition dml_at (text : jsstring) (i : nat) : option jsstring :=
  dml_here (prev_at text i) (skipn i text).

(** The keyword table of the specification. *)
Definition KEYWORD_TABLE : list (string * QueryType) :=
  [("SELECT", SELECT); ("INSERT", INSERT); ("UPDATE", UPDATE); ("DELETE", DELETE);
   ("REPLACE", REPLACE); ("CREATE", CREATE); ("ALTER", ALTER); ("DROP", DROP);
   ("TRUNCATE", TRUNCATE); ("START", START_TRANSACTION); ("BEGIN", START_TRANSACTION);
   ("COMMIT", COMMIT); ("ROLLBACK", ROLLBACK); ("SAVEPOINT", SAVEPOINT);
   ("GRANT", GRANT); ("REVOKE", REVOKE); ("FLUSH", FLUSH); ("KILL", KILL);
   ("LOAD", LOAD_DATA); ("SHOW", SHOW); ("DESCRIBE", DESCRIBE); ("DESC", DESCRIBE);
   ("EXPLAIN", EXPLAIN); ("USE", USE); ("SET", SET)]%string.

(** A token mapped through the table; a token that is not in it is
    UNKNOWN. *)
Definition classify_token (token : jsstring) : QueryType :=
  match find (fun entry => Js.eqb token (js (fst entry))) KEYWORD_TABLE with
  | Some entry => snd entry
  | None => UNKNOWN
  end.

Section Classifier.

(** [String.prototype.toUpperCase], a built-in of the language. *)
Variable toUpperCase : jsstring -> jsstring.

Definition extractFirstKeyword (statement : jsstring) : jsstring :=
  let upper := toUpperCase statement in
  match (if Js.startsWith upper WITH then match_cte upper else None) with
  | Some kw => kw
  | None =>
      let words := Js.split_ws upper in
      hd [] words
  end.

(** The [switch] over the keyword. *)
Definition keyword_case (keyword : jsstring) : QueryType :=
  let on k := Js.eqb keyword k in
  if on (js "SELECT") then SELECT
  else if on (js "INSERT") then INSERT
  else if on (js "UPDATE") then UPDATE
  else if on (js "DELETE") then DELETE
  else if on (js "REPLACE") then REPLACE
  else if on (js "CREATE") then CREATE
  else if on (js "ALTER") then ALTER
  else if on (js "DROP") then DROP
  else if on (js "TRUNCATE") then TRUNCATE
  else if on (js "START") then START_TRANSACTION
  else if on (js "BEGIN") then START_TRANSACTION
  else if on (js "COMMIT") then COMMIT
  else if on (js "ROLLBACK") then ROLLBACK
  else if on (js "SAVEPOINT") then SAVEPOINT
  else if on (js "GRANT") then GRANT
  else if on (js "REVOKE") then REVOKE
  else if on (js "FLUSH") then FLUSH
  else if on (js "KILL") then KILL
  else if on (js "LOAD") then LOAD_DATA
  else if on (js "SHOW") then SHOW
  else if on (js "DESCRIBE") then DESCRIBE
  else if on (js "DESC") then DESCRIBE
  else if on (js "EXPLAIN") then EXPLAIN
  else if on (js "USE") then USE
  else if on (js "SET") then SET
  else UNKNOWN.

Definition detectQueryType (statement : jsstring) : QueryType :=
  let keyword := extractFirstKeyword statement in
  keyword_case keyword.

End Classifier.

(* ================================================================== *)
(** * [src/services/query-parser.ts]: rejection texts and [parseQuery] *)
(* ================================================================== *)

Definition explainBlocked (queryType : QueryType) (mode : OperationMode) : jsstring :=
  let t := QueryType_value queryType in
  if OperationMode_eqb mode READ_ONLY then
    match queryType with
    | INSERT | UPDATE | DELETE | REPLACE =>
        t ++ js " operations are not allowed in READ-ONLY mode. Set MYSQL_ALLOW_WRITE=true to enable write operations."
    | START_TRANSACTION | COMMIT | ROLLBACK | SAVEPOINT =>
        js "Transaction control (" ++ t ++
        js ") is not allowed in READ-ONLY mode. Set MYSQL_ALLOW_WRITE=true to enable transactions."
    | DROP | TRUNCATE =>
        t ++ js " operations are dangerous and never allowed for safety. Use MySQL CLI directly for destructive DDL operations."
    | CREATE | ALTER =>
        js "DDL operations (" ++ t ++ js ") are not allowed in READ-ONLY mode."
    | GRANT | REVOKE | FLUSH | KILL | LOAD_DATA =>
        js "Administrative commands (" ++ t ++ js ") are never allowed for security reasons."
    | SET =>
        js "SET operations are not allowed in READ-ONLY mode."
    | _ =>
        t ++ js " operations are not allowed in READ-ONLY mode."
    end
  else
    match queryType with
    | DROP | TRUNCATE =>
        t ++ js " operations are dangerous and blocked even in WRITE mode for safety. Use MySQL CLI directly for destructive DDL operations."
    | GRANT | REVOKE | FLUSH | KILL | LOAD_DATA =>
        js "Administrative commands (" ++ t ++ js ") are never allowed for security reasons."
    | CREATE | ALTER =>
        js "DDL operations (" ++ t ++
        js ") are not allowed even in WRITE mode. Use MySQL CLI for schema changes."
    | _ =>
        t ++ js " operations are not recognized or not allowed."
    end.

Definition suggestFix (queryType : QueryType) (mode : OperationMode) : jsstring :=
  if OperationMode_eqb mode READ_ONLY then
    if includes WRITE_MODE_ALLOWED queryType then
      js "To enable write operations, set the environment variable: MYSQL_ALLOW_WRITE=true"
    else if QueryType_eqb queryType DROP || QueryType_eqb queryType TRUNCATE then
      js "For safety, destructive DDL operations must be performed directly using MySQL CLI, not through this MCP server."
    else if includes NEVER_ALLOWED queryType then
      js "Administrative commands are never allowed through this MCP server for security reasons."
    else []
  else
    if QueryType_eqb queryType DROP || QueryType_eqb queryType TRUNCATE then
      js "Even in WRITE mode, destructive DDL operations are blocked. Use MySQL CLI directly for these operations."
    else if includes NEVER_ALLOWED queryType then
      js "Administrative commands are never allowed through this MCP server, regardless of mode."
    else [].

(** A computation that writes audit lines: its value and the lines, oldest
    first. *)
Definition Logged (A : Type) : Type := A * list jsstring.

Section Validation.

Variable toUpperCase : jsstring -> jsstring.

Definition blocked (queryType : QueryType) (mode : OperationMode) : ParseResult :=
  {| queryType := queryType;
     allowed := false;
     reason := Some (explainBlocked queryType mode);
     suggestion := Some (suggestFix queryType mode) |}.

(** The [for] loop over the statements: the verdict of the first statement
    that is not allowed, if there is one; every statement visited is
    logged. *)
Fixpoint check_statements (mode : OperationMode) (statements : list jsstring)
    : Logged (option ParseResult) :=
  match statements with
  | [] => (None, [])
  | statement :: rest =>
      let queryType := detectQueryType toUpperCase statement in
      let allowed := isAllowed queryType mode in
      let line := logQuery statement mode allowed (Some queryType) in
      if negb allowed then (Some (blocked queryType mode), [line])
      else let (r, lines) := check_statements mode rest in (r, line :: lines)
  end.

(** The audit line of a statement of the batch. *)
Definition audit_line (mode : OperationMode) (statement : jsstring) : jsstring :=
  let queryType := detectQueryType toUpperCase statement in
  logQuery statement mode (isAllowed queryType mode) (Some queryType).

(** A statement on its own is authorized. *)
Definition authorized (mode : OperationMode) (statement : jsstring) : bool :=
  isAllowed (detectQueryType toUpperCase statement) mode.

Definition parseQuery_logged (query : jsstring) (mode : OperationMode)
    : Logged ParseResult :=
  let normalized := normalizeQuery query in
  let statements := splitStatements normalized in
  if N.of_nat (List.length statements) =? 0 then
    ({| queryType := UNKNOWN;
        allowed := false;
        reason := Some (js "Empty or invalid query");
        suggestion := Some (js "Please provide a valid SQL query.") |}, [])
  else
    match check_statements mode statements with
    | (Some verdict, lines) => (verdict, lines)
    | (None, lines) =>
        let firstQueryType := detectQueryType toUpperCase (hd [] statements) in
        ({| queryType := firstQueryType;
            allowed := true;
            reason := None;
            suggestion := None |}, lines)
    end.

Definition parseQuery (query : jsstring) (mode : OperationMode) : ParseResult :=
  fst (parseQuery_logged query mode).

End Validation.

(* ================================================================== *)
(** * Thrown values *)
(* ================================================================== *)

(** A validation issue of Zod: the path of the offending field and the
    message. *)
Record ZodIssue := {
  issue_path : list jsstring;
  issue_message : jsstring
}.

(** An instance of [Error].  The driver's errors are such instances that
    also carry [code], [sqlMessage] and [sql]; [code] is present here when
    the object has a property [code] that is a string.  [zodIssues] is
    present for an instance of [ZodError]. *)
Record ErrorObject := {
  name : jsstring;
  message : jsstring;
  code : option jsstring;
  sqlMessage : option jsstring;
  sql : option jsstring;
  zodIssues : option (list ZodIssue)
}.

(** What a [catch] clause receives: an [Error], or any other value, of
    which the handlers look at the same three properties and at
    [String(error)]. *)
Inductive Thrown :=
  | ErrorInstance (e : ErrorObject)
  | OtherValue (code : option jsstring) (sqlMessage sql : option jsstring)
      (text : jsstring).

(** [new Error(msg)]. *)
Definition new_Error (msg : jsstring) : Thrown :=
  ErrorInstance {| name := js "Error"; message := msg; code := None;
                   sqlMessage := None; sql := None; zodIssues := None |}.

(** The outcome of a call that may throw. *)
Inductive Outcome (A : Type) :=
  | Returned (a : A)
  | Threw (e : Thrown).
Arguments Returned {A} a.
Arguments Threw {A} e.

(** [x || d] for an optional string: the default replaces a missing or
    empty value. *)
Definition or_else (x : option jsstring) (d : jsstring) : jsstring :=
  match x with
  | Some (c :: t) => c :: t
  | _ => d
  end.

Definition nl : jsstring := [LF].

(** [parts.join(sep)]. *)
Fixpoint join (sep : jsstring) (parts : list jsstring) : jsstring :=
  match parts with
  | [] => []
  | [p] => p
  | p :: rest => p ++ sep ++ join sep rest
  end.

(* ================================================================== *)
(** * [src/utils/error-handlers.ts] *)
(* ================================================================== *)

Definition thrown_code (error : Thrown) : option jsstring :=
  match error with
  | ErrorInstance e => code e
  | OtherValue c _ _ _ => c
  end.

Definition thrown_sqlMessage (error : Thrown) : option jsstring :=
  match error with
  | ErrorInstance e => sqlMessage e
  | OtherValue _ m _ _ => m
  end.

Definition thrown_sql (error : Thrown) : option jsstring :=
  match error with
  | ErrorInstance e => sql e
  | OtherValue _ _ q _ => q
  end.

Definition isMySQLError (error : Thrown) : bool :=
  match thrown_code error with
  | Some _ => true
  | None => false
  end.

Definition isTimeoutError (error : Thrown) : bool :=
  match error with
  | ErrorInstance e =>
      Js.includes (message e) (js "timeout") || Js.includes (message e) (js "ETIMEDOUT")
  | OtherValue _ _ _ _ => false
  end.

Definition handleUnknownError (error : Thrown) : jsstring :=
  match error with
  | ErrorInstance e =>
      js "**Error: " ++ name e ++ js "**" ++ nl ++ nl ++ message e ++ nl
  | OtherValue _ _ _ text =>
      js "**Unexpected error**" ++ nl ++ nl ++ text ++ nl
  end.

Definition LOCK_WAIT_TIMEOUT_TEXT : jsstring :=
  js "**Error: Lock wait timeout exceeded**" ++ nl ++ nl ++
  js "The query waited too long to acquire a table lock." ++ nl ++ nl ++
  js "**Suggestions:**" ++ nl ++
  js "- Try the query again - another transaction may be holding the lock" ++ nl ++
  js "- Check for long-running queries that might be blocking this operation" ++ nl ++
  js "- Consider using smaller transactions" ++ nl ++
  js "- Contact your database administrator if the issue persists" ++ nl.

(** [case k:] of the [switch] over the code. *)
Definition code_is (c : jsstring) (k : string) : bool := Js.eqb c (js k).

(** [mysqlError.sqlMessage || d]. *)
Definition sqlMessage_or_else (error : Thrown) (d : string) : jsstring :=
  or_else (thrown_sqlMessage error) (js d).

Definition handleMySQLError (error : Thrown) : jsstring :=
  match thrown_code error with
  | None => handleUnknownError error
  | Some c =>
      if code_is c "ER_NO_SUCH_TABLE" then
        js "**Error: Table does not exist**" ++ nl ++ nl ++
        sqlMessage_or_else error "The specified table was not found." ++ nl ++ nl ++
        js "**Suggestions:**" ++ nl ++
        js "- Verify the table name is spelled correctly" ++ nl ++
        js "- Ensure you're using fully qualified names (database.table format)" ++ nl ++
        js "- Use SHOW TABLES FROM database_name to see available tables" ++ nl ++
        js "- Check that you have permissions to access this table" ++ nl
      else if code_is c "ER_BAD_DB_ERROR" then
        js "**Error: Database does not exist**" ++ nl ++ nl ++
        sqlMessage_or_else error "The specified database was not found." ++ nl ++ nl ++
        js "**Suggestions:**" ++ nl ++
        js "- Verify the database name is spelled correctly" ++ nl ++
        js "- Use SHOW DATABASES to see available databases" ++ nl ++
        js "- Check that you have permissions to access this database" ++ nl
      else if code_is c "ER_ACCESS_DENIED_ERROR" || code_is c "ER_TABLEACCESS_DENIED_ERROR" ||
              code_is c "ER_DBACCESS_DENIED_ERROR" then
        js "**Error: Access denied**" ++ nl ++ nl ++
        sqlMessage_or_else error "You do not have permission for this operation." ++ nl ++ nl ++
        js "Your MySQL user account does not have the required permissions for this operation." ++ nl ++ nl ++
        js "**Suggestions:**" ++ nl ++
        js "- Contact your database administrator to grant appropriate permissions" ++ nl ++
        js "- Verify you're connecting with the correct MySQL user account" ++ nl ++
        js "- Check that your user has been granted access to the specific database/table" ++ nl
      else if code_is c "ER_PARSE_ERROR" || code_is c "ER_SYNTAX_ERROR" then
        js "**Error: SQL syntax error**" ++ nl ++ nl ++
        sqlMessage_or_else error "There is an error in your SQL syntax." ++ nl ++ nl ++
        js "**Suggestions:**" ++ nl ++
        js "- Check your query syntax carefully" ++ nl ++
        js "- Ensure table names are fully qualified (database.table format)" ++ nl ++
        js "- Verify column names and keywords are spelled correctly" ++ nl ++
        js "- Make sure quotes and parentheses are balanced" ++ nl
      else if code_is c "ER_DUP_ENTRY" then
        js "**Error: Duplicate entry**" ++ nl ++ nl ++
        sqlMessage_or_else error "A duplicate value was found." ++ nl ++ nl ++
        js "This typically occurs when trying to insert a row that violates a unique constraint or primary key." ++ nl ++ nl ++
        js "**Suggestions:**" ++ nl ++
        js "- Check for existing records before inserting" ++ nl ++
        js "- Use INSERT IGNORE or REPLACE to handle duplicates" ++ nl ++
        js "- Modify your data to ensure unique values" ++ nl
      else if code_is c "ER_NO_REFERENCED_ROW" || code_is c "ER_NO_REFERENCED_ROW_2" then
        js "**Error: Foreign key constraint violation**" ++ nl ++ nl ++
        sqlMessage_or_else error "Referenced row does not exist." ++ nl ++ nl ++
        js "The operation violates a foreign key constraint - the referenced row must exist first." ++ nl ++ nl ++
        js "**Suggestions:**" ++ nl ++
        js "- Ensure the referenced record exists in the parent table" ++ nl ++
        js "- Check that foreign key values match existing primary key values" ++ nl
      else if code_is c "ER_ROW_IS_REFERENCED" || code_is c "ER_ROW_IS_REFERENCED_2" then
        js "**Error: Cannot delete or update**" ++ nl ++ nl ++
        sqlMessage_or_else error "Row is referenced by other records." ++ nl ++ nl ++
        js "The row cannot be deleted or updated because other records reference it." ++ nl ++ nl ++
        js "**Suggestions:**" ++ nl ++
        js "- Delete child records first" ++ nl ++
        js "- Consider using CASCADE delete if appropriate" ++ nl ++
        js "- Update foreign keys in dependent tables" ++ nl
      else if code_is c "ER_LOCK_WAIT_TIMEOUT" then
        LOCK_WAIT_TIMEOUT_TEXT
      else if code_is c "ER_LOCK_DEADLOCK" then
        js "**Error: Deadlock detected**" ++ nl ++ nl ++
        sqlMessage_or_else error "A deadlock was detected and the transaction was rolled back." ++ nl ++ nl ++
        js "**Suggestions:**" ++ nl ++
        js "- Retry the operation - deadlocks are typically transient" ++ nl ++
        js "- Consider reordering operations to avoid deadlocks" ++ nl ++
        js "- Keep transactions small and quick" ++ nl
      else if code_is c "ER_TOO_MANY_CONNECTIONS" then
        js "**Error: Too many connections**" ++ nl ++ nl ++
        js "The MySQL server has reached its connection limit." ++ nl ++ nl ++
        js "**Suggestions:**" ++ nl ++
        js "- Wait a moment and try again" ++ nl ++
        js "- Contact your database administrator to increase max_connections" ++ nl ++
        js "- Check for connection leaks in applications" ++ nl
      else if code_is c "ECONNREFUSED" then
        js "**Error: Connection refused**" ++ nl ++ nl ++
        js "Unable to connect to the MySQL server." ++ nl ++ nl ++
        js "**Suggestions:**" ++ nl ++
        js "- Verify the MySQL server is running" ++ nl ++
        js "- Check that MYSQL_HOST and MYSQL_PORT are correct" ++ nl ++
        js "- Ensure there are no firewall rules blocking the connection" ++ nl ++
        js "- Verify network connectivity to the database server" ++ nl
      else if code_is c "PROTOCOL_CONNECTION_LOST" || code_is c "ECONNRESET" then
        js "**Error: Connection lost**" ++ nl ++ nl ++
        js "The connection to the MySQL server was lost." ++ nl ++ nl ++
        js "**Suggestions:**" ++ nl ++
        js "- Check your network connection" ++ nl ++
        js "- Verify the MySQL server is running" ++ nl ++
        js "- Try the query again" ++ nl ++
        js "- Check MySQL server logs for issues" ++ nl
      else
        js "**MySQL Error (" ++ c ++ js ")**" ++ nl ++ nl ++
        sqlMessage_or_else error "An error occurred while executing the query." ++ nl ++ nl ++
        match thrown_sql error with
        | Some (q :: qs) =>
            js "**Query:**" ++ nl ++ js "```sql" ++ nl ++ (q :: qs) ++ nl ++ js "```" ++ nl ++ nl
        | _ => []
        end ++
        js "If this error persists, consult the MySQL documentation or contact your database administrator." ++ nl
  end.

Definition handleTimeoutError (queryTimeout : N) : jsstring :=
  js "**Error: Query execution timeout**" ++ nl ++ nl ++
  js "The query exceeded the timeout limit of " ++ Js.of_N queryTimeout ++ js "ms." ++ nl ++ nl ++
  js "**Suggestions to resolve:**" ++ nl ++
  js "- Add a LIMIT clause to reduce the result set size (e.g., LIMIT 100)" ++ nl ++
  js "- Add WHERE clauses to filter data more specifically" ++ nl ++
  js "- Select only necessary columns instead of using SELECT *" ++ nl ++
  js "- Add indexes on columns used in WHERE and JOIN clauses" ++ nl ++
  js "- Use EXPLAIN to analyze query performance" ++ nl ++
  js "- Consider breaking complex queries into smaller operations" ++ nl ++
  js "- Increase MYSQL_QUERY_TIMEOUT environment variable if necessary" ++ nl.

Definition handleValidationError (issues : list ZodIssue) : jsstring :=
  let lines :=
    map (fun issue =>
           let path := join (js ".") (issue_path issue) in
           js "- **" ++ path ++ js "**: " ++ issue_message issue) issues in
  js "**Input validation error**" ++ nl ++ nl ++
  js "The following validation errors occurred:" ++ nl ++ nl ++
  join nl lines ++ nl.

Definition thrown_zodIssues (error : Thrown) : option (list ZodIssue) :=
  match error with
  | ErrorInstance e => zodIssues e
  | OtherValue _ _ _ _ => None
  end.

Definition handleQueryError (error : Thrown) (queryTimeout : N) : jsstring :=
  if isTimeoutError error then handleTimeoutError queryTimeout
  else match thrown_zodIssues error with
       | Some issues => handleValidationError issues
       | None =>
           if isMySQLError error then handleMySQLError error
           else handleUnknownError error
       end.

(* ================================================================== *)
(** * Results: [src/types.ts] and the driver's packets *)
(* ================================================================== *)

(** A cell of a row.  Strings and the numbers that are safe integers
    (magnitude at most [Number.MAX_SAFE_INTEGER], negative zero included)
    are kept as they are; for the other values ([Date], objects, and the
    numbers that are fractions, lie beyond the safe integers or are not
    finite) the cell keeps the text the built-in conversions give
    ([toISOString], [JSON.stringify], [String]). *)
Inductive Cell :=
  | CNull
  | CUndefined
  | CString (s : jsstring)
  | CInt (negative : bool) (magnitude : N)
         (safe : (magnitude <=? Js.MAX_SAFE_INTEGER) = true)
  | CBool (b : bool)
  | CText (text : jsstring).

Record Column := { col_name : jsstring; col_type : jsstring }.

Record QueryResult := {
  columns : option (list Column);
  rows : option (list (list Cell));
  affectedRows : option N;
  insertId : option N;
  changedRows : option N;
  rowCount : N;
  executionTime : N;
  warnings : option (list jsstring);
  truncated : option bool
}.

Record FieldPacket := { field_name : jsstring; field_type : option N }.

(** A row object: its properties, by column name. *)
Definition RowDataPacket : Type := list (jsstring * Cell).

Record OkPacket := {
  ok_affectedRows : N;
  ok_insertId : option N;
  ok_changedRows : option N
}.

(** The first component of the driver's answer: an array (which has a
    property [affectedRows] or not), an acknowledgement packet, or
    something else. *)
Inductive NativeRows :=
  | RowArray (items : list RowDataPacket) (own : option OkPacket)
  | Packet (ok : OkPacket)
  | OtherRows.

Definition MySQLQueryResult : Type := NativeRows * list FieldPacket.

(* ================================================================== *)
(** * [src/services/mysql-client.ts] *)
(* ================================================================== *)

Record QueryOptions := { opt_sql : jsstring; opt_timeout : N }.

(** [pool.query]: the database collaborator. *)
Definition Pool : Type := QueryOptions -> Outcome MySQLQueryResult.

Record MySQLClient := {
  pool : option Pool;
  config_queryTimeout : N
}.

(** A call of the client, with the queries that reached the pool. *)
Definition client_executeQuery (this : MySQLClient) (sql : jsstring) (timeout : option N)
    : Outcome MySQLQueryResult * list QueryOptions :=
  match pool this with
  | None =>
      (Threw (new_Error (js "MySQL client not initialized. Call initialize() first.")), [])
  | Some pool_query =>
      let queryTimeout :=
        match timeout with
        | Some t => if t =? 0 then config_queryTimeout this else t
        | None => config_queryTimeout this
        end in
      let queryOptions := {| opt_sql := sql; opt_timeout := queryTimeout |} in
      match pool_query queryOptions with
      | Returned result => (Returned result, [queryOptions])
      | Threw error =>
          match error with
          | ErrorInstance e =>
              if Js.includes (message e) (js "timeout")
              then (Threw (new_Error (js "Query execution timeout exceeded (" ++
                                      Js.of_N queryTimeout ++ js "ms)")), [queryOptions])
              else (Threw error, [queryOptions])
          | OtherValue _ _ _ _ => (Threw error, [queryOptions])
          end
      end
  end.

(* ================================================================== *)
(** * [src/services/query-executor.ts] *)
(* ================================================================== *)

Definition typeMap : list (N * string) :=
  [(0, "DECIMAL"); (1, "TINY"); (2, "SHORT"); (3, "LONG"); (4, "FLOAT");
   (5, "DOUBLE"); (6, "NULL"); (7, "TIMESTAMP"); (8, "LONGLONG"); (9, "INT24");
   (10, "DATE"); (11, "TIME"); (12, "DATETIME"); (13, "YEAR"); (15, "VARCHAR");
   (16, "BIT"); (245, "JSON"); (246, "NEWDECIMAL"); (247, "ENUM"); (248, "SET");
   (249, "TINY_BLOB"); (250, "MEDIUM_BLOB"); (251, "LONG_BLOB"); (252, "BLOB");
   (253, "VAR_STRING"); (254, "STRING"); (255, "GEOMETRY")]%string.

Definition getFieldTypeName (type : N) : jsstring :=
  match find (fun entry => fst entry =? type) typeMap with
  | Some entry => js (snd entry)
  | None => js "UNKNOWN(" ++ Js.of_N type ++ js ")"
  end.

(** [row[name]]. *)
Definition row_get (row : RowDataPacket) (name : jsstring) : Cell :=
  match find (fun entry => Js.eqb (fst entry) name) row with
  | Some entry => snd entry
  | None => CUndefined
  end.

Definition field_type_or_0 (field : FieldPacket) : N :=
  match field_type field with
  | Some t => t
  | None => 0
  end.

Definition columns_of (fields : list FieldPacket) : list Column :=
  map (fun field => {| col_name := field_name field;
                       col_type := getFieldTypeName (field_type_or_0 field) |}) fields.

Definition rowArray_of (fields : list FieldPacket) (rowData : list RowDataPacket)
    : list (list Cell) :=
  map (fun row => map (fun field => row_get row (field_name field)) fields) rowData.

Definition N_or_0 (x : option N) : N :=
  match x with
  | Some n => n
  | None => 0
  end.

Definition tabular (fields : list FieldPacket) (rowData : list RowDataPacket)
    (executionTime : N) : QueryResult :=
  {| columns := Some (columns_of fields);
     rows := Some (rowArray_of fields rowData);
     affectedRows := None; insertId := None; changedRows := None;
     rowCount := N.of_nat (List.length rowData);
     executionTime := executionTime;
     warnings := None;
     truncated := Some false |}.

Definition acknowledgement (okPacket : OkPacket) (executionTime : N) : QueryResult :=
  {| columns := None; rows := None;
     affectedRows := Some (ok_affectedRows okPacket);
     insertId := Some (N_or_0 (ok_insertId okPacket));
     changedRows := Some (N_or_0 (ok_changedRows okPacket));
     rowCount := ok_affectedRows okPacket;
     executionTime := executionTime;
     warnings := None;
     truncated := Some false |}.

Definition formatResult (rows : NativeRows) (fields : list FieldPacket)
    (executionTime : N) : QueryResult :=
  match rows with
  | RowArray rowData None => tabular fields rowData executionTime
  | RowArray _ (Some okPacket) => acknowledgement okPacket executionTime
  | Packet okPacket => acknowledgement okPacket executionTime
  | OtherRows =>
      {| columns := None; rows := None;
         affectedRows := None; insertId := None; changedRows := None;
         rowCount := 0;
         executionTime := executionTime;
         warnings := None;
         truncated := Some false |}
  end.

(** What a request did to the world: the audit lines written and the
    queries handed to the pool, oldest first. *)
Record Effects := {
  audit : list jsstring;
  queries : list QueryOptions
}.

Record QueryExecutor := {
  mysqlClient : MySQLClient;
  operationMode : OperationMode
}.

(** [error.message = `${error.message} (execution time: ${executionTime}ms)`]
    on an instance of [Error]. *)
Definition with_execution_time (error : Thrown) (executionTime : N) : Thrown :=
  match error with
  | ErrorInstance e =>
      ErrorInstance {| name := name e;
                       message := message e ++ js " (execution time: " ++
                                  Js.of_N executionTime ++ js "ms)";
                       code := code e; sqlMessage := sqlMessage e; sql := sql e;
                       zodIssues := zodIssues e |}
  | OtherValue _ _ _ _ => error
  end.

Section Execution.

Variable toUpperCase : jsstring -> jsstring.

(** [executionTime] is what the clock gives for [Date.now() - startTime]. *)
Definition executor_executeQuery (this : QueryExecutor) (executionTime : N)
    (query : jsstring) : Outcome QueryResult * Effects :=
  let (parseResult, lines) := parseQuery_logged toUpperCase query (operationMode this) in
  if negb (allowed parseResult) then
    (Threw (new_Error (js "Query blocked: " ++
                       match reason parseResult with
                       | Some r => r
                       | None => js "undefined"
                       end ++ nl ++ nl ++
                       or_else (suggestion parseResult) [])),
     {| audit := lines; queries := [] |})
  else
    match client_executeQuery (mysqlClient this) query None with
    | (Returned (rows, fields), sent) =>
        (Returned (formatResult rows fields executionTime),
         {| audit := lines; queries := sent |})
    | (Threw error, sent) =>
        (Threw (with_execution_time error executionTime),
         {| audit := lines; queries := sent |})
    end.

End Execution.

(* ================================================================== *)
(** * [src/utils/formatters.ts] *)
(* ================================================================== *)

Record JsonMetadata := {
  meta_rowCount : N;
  meta_executionTime : N;
  meta_truncated : bool;
  meta_affectedRows : option N;
  meta_insertId : option N;
  meta_changedRows : option N
}.

(** The object [formatAsJSON] builds and hands to [JSON.stringify]. *)
Record JsonOutput := {
  out_columns : list Column;
  out_rows : list (list Cell);
  out_metadata : JsonMetadata
}.

Definition list_or_empty {A : Type} (x : option (list A)) : list A :=
  match x with
  | Some l => l
  | None => []
  end.

(** [result.truncated || false]. *)
Definition bool_or_false (x : option bool) : bool :=
  match x with
  | Some b => b
  | None => false
  end.

Definition json_output (result : QueryResult) : JsonOutput :=
  {| out_columns := list_or_empty (columns result);
     out_rows := list_or_empty (rows result);
     out_metadata :=
       {| meta_rowCount := rowCount result;
          meta_executionTime := executionTime result;
          meta_truncated := bool_or_false (truncated result);
          meta_affectedRows := affectedRows result;
          meta_insertId := insertId result;
          meta_changedRows := changedRows result |} |}.

(** For a number [String(value)]: the digits of a safe integer behind
    its sign, negative zero printing as [0]. *)
Definition formatCell (value : Cell) : jsstring :=
  match value with
  | CNull => js "*NULL*"
  | CUndefined => js "*undefined*"
  | CString s => s
  | CInt negative magnitude _ =>
      (if negative && negb (magnitude =? 0) then js "-" else []) ++ Js.of_N magnitude
  | CBool b => if b then js "true" else js "false"
  | CText text => text
  end.

Definition table_row (cells : list jsstring) : jsstring :=
  js "| " ++ join (js " | ") cells ++ js " |" ++ nl.

Definition formatMarkdownTable (columns : list Column) (rows : list (list Cell)) : jsstring :=
  if (N.of_nat (List.length columns) =? 0) || (N.of_nat (List.length rows) =? 0) then
    js "*(Empty result set)*"
  else
    table_row (map col_name columns) ++
    table_row (map (fun _ => js "---") columns) ++
    List.concat (map (fun row => table_row (map formatCell row)) rows).

Definition formatDMLResult (result : QueryResult) : jsstring :=
  js "**Operation completed successfully**" ++ nl ++ nl ++
  match affectedRows result with
  | Some n => js "- Rows affected: " ++ Js.of_N n ++ nl
  | None => []
  end ++
  match insertId result with
  | Some n => if 0 <? n then js "- Insert ID: " ++ Js.of_N n ++ nl else []
  | None => []
  end ++
  match changedRows result with
  | Some n => js "- Rows changed: " ++ Js.of_N n ++ nl
  | None => []
  end ++
  js "- Execution time: " ++ Js.of_N (executionTime result) ++ js "ms" ++ nl.

Definition formatAsMarkdown (result : QueryResult) (_queryType : QueryType) : jsstring :=
  match columns result, rows result with
  | Some cols, Some (r :: rs) =>
      formatMarkdownTable cols (r :: rs) ++ nl ++ nl ++
      js "**Query completed:** " ++ Js.of_N (rowCount result) ++
      js " row(s) returned in " ++ Js.of_N (executionTime result) ++ js "ms" ++ nl
  | Some _, Some [] =>
      js "**No rows returned**" ++ nl ++ nl ++
      js "Query completed in " ++ Js.of_N (executionTime result) ++ js "ms" ++ nl
  | _, _ =>
      match affectedRows result with
      | Some _ => formatDMLResult result
      | None =>
          js "**Query completed** in " ++ Js.of_N (executionTime result) ++ js "ms" ++ nl ++
          (if 0 <? rowCount result
           then Js.of_N (rowCount result) ++ js " row(s) affected" ++ nl
           else [])
      end
  end.

(** The two code units of the warning sign and its variation selector. *)
Definition WARNING_SIGN : jsstring := [9888; 65039].

(** The notice appended to a truncated response; [original] is
    [response.length]. *)
Definition warning_text (original : N) : jsstring :=
  nl ++ nl ++ js "---" ++ nl ++ js "**" ++ WARNING_SIGN ++ js " Response Truncated**" ++ nl ++ nl ++
  js "The response was truncated at " ++ Js.of_N CHARACTER_LIMIT ++ js " characters. " ++
  js "Original length was " ++ Js.of_N original ++ js " characters." ++ nl ++ nl ++
  js "**Suggestions to reduce response size:**" ++ nl ++
  js "- Add a LIMIT clause to restrict the number of rows (e.g., LIMIT 100)" ++ nl ++
  js "- Use WHERE clauses to filter data more specifically" ++ nl ++
  js "- Select only necessary columns instead of using SELECT *" ++ nl ++
  js "- Consider breaking your query into smaller, more focused queries" ++ nl.

(** The notice is fixed text around the numeral of the original length. *)
Definition notice_head : jsstring :=
  nl ++ nl ++ js "---" ++ nl ++ js "**" ++ WARNING_SIGN ++ js " Response Truncated**" ++
  nl ++ nl ++ js "The response was truncated at 25000 characters. ".

Definition notice_hints : jsstring :=
  nl ++ nl ++
  js "**Suggestions to reduce response size:**" ++ nl ++
  js "- Add a LIMIT clause to restrict the number of rows (e.g., LIMIT 100)" ++ nl ++
  js "- Use WHERE clauses to filter data more specifically" ++ nl ++
  js "- Select only necessary columns instead of using SELECT *" ++ nl ++
  js "- Consider breaking your query into smaller, more focused queries" ++ nl.

Definition applyCharacterLimit (response : jsstring) (includeWarning : bool) : jsstring :=
  if Js.len response <=? CHARACTER_LIMIT then response
  else
    let truncated := Js.substring0 response CHARACTER_LIMIT in
    if negb includeWarning then truncated
    else
      let warning := warning_text (Js.len response) in
      let maxContentLength := (Z.of_N CHARACTER_LIMIT - Z.of_N (Js.len warning))%Z in
      if (0 <? maxContentLength)%Z && (maxContentLength <? Z.of_N (Js.len truncated))%Z
      then Js.substring0 response (Z.to_N maxContentLength) ++ warning
      else truncated ++ warning.

(* ================================================================== *)
(** * [src/tools/query-tool.ts] *)
(* ================================================================== *)

Inductive ResponseFormat := MARKDOWN | JSON.

(** The value [QueryInputSchema.parse] returns. *)
Record QueryInput := {
  query : jsstring;
  response_format : ResponseFormat
}.

Section Tool.

Variable toUpperCase : jsstring -> jsstring.

(** [JSON.stringify(output, null, 2)], a built-in of the language. *)
Variable JSON_stringify : JsonOutput -> jsstring.

Definition formatAsJSON (result : QueryResult) : jsstring :=
  JSON_stringify (json_output result).

(** The text before the character limit is applied. *)
Definition formatted_text (input : QueryInput) (result : QueryResult) : jsstring :=
  match response_format input with
  | JSON => formatAsJSON result
  | MARKDOWN =>
      formatAsMarkdown result
        (match columns result with Some _ => SELECT | None => INSERT end)
  end.

(** [handleQueryTool] from the point where the arguments have passed
    [QueryInputSchema.parse]: the text of the response, with the effects
    of the request.  (A failure of the validation is a thrown [ZodError],
    which [handleQueryError] turns into text.) *)
Definition handleQueryTool (input : QueryInput) (executor : QueryExecutor)
    (timeout : N) (executionTime : N) : jsstring * Effects :=
  match executor_executeQuery toUpperCase executor executionTime (query input) with
  | (Returned result, effects) =>
      let formatted := formatted_text input result in
      let finalResponse := applyCharacterLimit formatted true in
      (finalResponse, effects)
  | (Threw error, effects) =>
      let errorMessage := handleQueryError error timeout in
      (errorMessage, effects)
  end.

End Tool.


(* ================================================================== *)
(** * Sample values *)
(* ================================================================== *)

Module Samples.

(** The error the driver raises when the server answers with error 1205
    (ER_LOCK_WAIT_TIMEOUT); the message is the server's text. *)
Definition lock_wait_error : Thrown :=
  ErrorInstance
    {| name := js "Error";
       message := js "Lock wait timeout exceeded; try restarting transaction";
       code := Some (js "ER_LOCK_WAIT_TIMEOUT");
       sqlMessage := Some (js "Lock wait timeout exceeded; try restarting transaction");
       sql := Some (js "UPDATE shop.products SET stock = 0 WHERE id = 1");
       zodIssues := None |}.

(** A pool whose every query fails with that error. *)
Definition locked_pool : Pool := fun _ => Threw lock_wait_error.

(** A pool that answers every query with an empty acknowledgement. *)
Definition ok_pool : Pool :=
  fun _ => Returned (Packet {| ok_affectedRows := 0; ok_insertId := None;
                               ok_changedRows := None |}, []).

Definition executor_on (p : Pool) (mode : OperationMode) : QueryExecutor :=
  {| mysqlClient := {| pool := Some p; config_queryTimeout := 30000 |};
     operationMode := mode |}.

Definition update_input : QueryInput :=
  {| query := js "UPDATE shop.products SET stock = 0 WHERE id = 1";
     response_format := MARKDOWN |}.

(** A query whose comment the normalizer removes. *)
Definition commented_query : jsstring := js "SELECT 1 -- note".

(** A batch whose second statement is rejected. *)
Definition select_then_drop : jsstring := js "SELECT * FROM a.b; DROP TABLE a.b;".

(** A request with nothing but a comment, blanks and terminators. *)
Definition nothing_query : jsstring := js "/* nothing */ ; ; -- here".

(** A pool that answers every query with one row of one column, whose
    cell is a string of 30000 letters. *)
Definition long_cell : Cell := CString (repeat 97 (N.to_nat 30000)).

Definition long_pool : Pool :=
  fun _ => Returned (RowArray [[(js "c", long_cell)]] None,
                     [{| field_name := js "c"; field_type := Some 253 |}]).

Definition select_input : QueryInput :=
  {| query := js "SELECT c FROM a.b"; response_format := MARKDOWN |}.

(** The result the executor builds from that answer. *)
Definition long_result : QueryResult :=
  tabular [{| field_name := js "c"; field_type := Some 253 |}]
          [[(js "c", long_cell)]] 7.

(** A common table expression, and one whose name is quoted and follows
    the introducer without a blank. *)
Definition cte_query : jsstring := js "WITH a AS (SELECT 1) SELECT 2".
Definition quoted_cte_query : jsstring := js "WITH`c` AS (SELECT 1) SELECT 1".

(** A request that opens with a block comment whose body holds two
    dashes. *)
Definition dashed_comment_query : jsstring := js "/* a -- b */ SELECT 1".

(** A request with comment and terminator characters inside string
    literals. *)
Definition quoted_query : jsstring := js "SELECT 'a--b' FROM t WHERE c = '/* x */;y'".

(** A failure without a code, and a pool that fails with it. *)
Definition aborted_error : ErrorObject :=
  {| name := js "Error"; message := js "read ECONNABORTED"; code := None;
     sqlMessage := None; sql := None; zodIssues := None |}.

Definition refusing_pool : Pool := fun _ => Threw (ErrorInstance aborted_error).

(** The error of a refused connection, as the driver raises it. *)
Definition refused_error : Thrown :=
  ErrorInstance
    {| name := js "Error"; message := js "connect ECONNREFUSED 127.0.0.1:3306";
       code := Some (js "ECONNREFUSED"); sqlMessage := None; sql := None;
       zodIssues := None |}.

(** A pool that answers with the text it was asked to run. *)
Definition echo_pool : Pool :=
  fun options =>
    Returned (RowArray [[(js "sql", CString (opt_sql options))]] None,
              [{| field_name := js "sql"; field_type := Some 253 |}]).

(** A stand-in for [JSON.stringify] where its text does not matter. *)
Definition no_json : JsonOutput -> jsstring := fun _ => [].

End Samples.

(* ================================================================== *)
(** * Notions used by the further properties *)
(* ================================================================== *)

(** A text is tidy when each of its whitespace characters is a blank that
    stands between two characters that are not whitespace.  [prev_ws] tells
    that no whitespace may come next (at the start, or behind a blank). *)
Fixpoint tidy_from (prev_ws : bool) (s : jsstring) : bool :=
  match s with
  | [] => negb prev_ws
  | c :: t =>
      if Js.is_ws c then (c =? SPACE) && negb prev_ws && tidy_from true t
      else tidy_from false t
  end.

Definition tidy (s : jsstring) : bool :=
  match s with
  | [] => true
  | _ :: _ => tidy_from true s
  end.

(** Whether the last character is whitespace; [d] for the empty text. *)
Definition last_is_ws (d : bool) (s : jsstring) : bool :=
  fold_left (fun _ c => Js.is_ws c) s d.

(** The codes for which [handleMySQLError] has a case of its own, and those
    among them whose text is fixed. *)
Definition KNOWN_CODES : list string :=
  ["ER_NO_SUCH_TABLE"; "ER_BAD_DB_ERROR"; "ER_ACCESS_DENIED_ERROR";
   "ER_TABLEACCESS_DENIED_ERROR"; "ER_DBACCESS_DENIED_ERROR"; "ER_PARSE_ERROR";
   "ER_SYNTAX_ERROR"; "ER_DUP_ENTRY"; "ER_NO_REFERENCED_ROW";
   "ER_NO_REFERENCED_ROW_2"; "ER_ROW_IS_REFERENCED"; "ER_ROW_IS_REFERENCED_2";
   "ER_LOCK_WAIT_TIMEOUT"; "ER_LOCK_DEADLOCK"; "ER_TOO_MANY_CONNECTIONS";
   "ECONNREFUSED"; "PROTOCOL_CONNECTION_LOST"; "ECONNRESET"]%string.

Definition FIXED_TEXT_CODES : list string :=
  ["ER_LOCK_WAIT_TIMEOUT"; "ER_TOO_MANY_CONNECTIONS"; "ECONNREFUSED";
   "PROTOCOL_CONNECTION_LOST"; "ECONNRESET"]%string.

(** The kinds that are in none of the three policy lists. *)
Definition UNLISTED : list QueryType := [USE; CREATE; ALTER; SET; UNKNOWN].

(** The text appended to the message of an error by the executor. *)
Definition execution_time_suffix (executionTime : N) : jsstring :=
  js " (execution time: " ++ Js.of_N executionTime ++ js "ms)".

(** Every whitespace character of the text is a blank: the text has no
    line break, tab or other spacing character. *)
Definition blank_only (s : jsstring) : bool :=
  forallb (fun c => negb (Js.is_ws c) || (c =? SPACE)) s.

(** The part of an audit line before the statement. *)
Definition audit_header (mode : OperationMode) (allowed : bool) (t : QueryType) : jsstring :=
  js "Query " ++ (if allowed then js "EXECUTED" else js "BLOCKED") ++ js " [" ++
  OperationMode_value mode ++ js "]" ++ (js " (" ++ QueryType_value t ++ js ")") ++ js ": ".

(** A line of a Markdown table, without its line break. *)
Definition table_line (cells : list jsstring) : jsstring :=
  js "| " ++ join (js " | ") cells ++ js " |".

Definition single_line (s : jsstring) : bool := forallb (fun c => negb (c =? LF)) s.

(** The cells the table shows for a row object. *)
Definition shown_cells (fields : list FieldPacket) (row : RowDataPacket) : list jsstring :=
  map (fun field => formatCell (row_get row (field_name field))) fields.
(* ================================================================== *)
(** * Properties of the policy *)
(* ================================================================== *)

Module PolicyFacts.

Import PolicySpec.

Ltac sets := unfold NeverAllowed, AlwaysAllowed, WriteModeAllowed in *.

Ltac decide_sets := sets; intuition (discriminate || congruence).

Lemma verdict_sound (k : QueryType) (m : OperationMode) (b : bool) :
  verdict k m b -> isAllowed k m = b.
Proof.
  intros H; inversion H; subst; clear H;
    destruct k; try reflexivity;
    try (destruct m; try reflexivity); exfalso; decide_sets.
Qed.

Lemma verdict_complete (k : QueryType) (m : OperationMode) :
  verdict k m (isAllowed k m).
Proof.
  destruct k, m; cbn;
    first [ solve [apply step1_never; decide_sets]
          | solve [apply step2_always; decide_sets]
          | solve [apply step3_write; decide_sets]
          | solve [apply step4_default; decide_sets] ].
Qed.

Lemma sets_agree (k : QueryType) :
  (In k ALWAYS_ALLOWED <-> AlwaysAllowed k) /\
  (In k NEVER_ALLOWED <-> NeverAllowed k) /\
  (In k WRITE_MODE_ALLOWED <-> WriteModeAllowed k).
Proof.
  unfold ALWAYS_ALLOWED, NEVER_ALLOWED, WRITE_MODE_ALLOWED; cbn; sets.
  repeat split; intros H; intuition (subst; auto 12).
Qed.

End PolicyFacts.

(** C1.  [isAllowed] returns, for every operation kind and both modes,
    exactly the verdict of the four-step decision order of the
    specification (never-allowed rejects; else always-allowed allows; else
    write mode with a write-mode kind allows; else reject), over sets that
    are those of the source.  In particular a never-allowed kind is
    rejected in both modes, a write-mode kind is allowed exactly in write
    mode, and UNKNOWN, CREATE, ALTER, USE and SET are rejected in both
    modes. *)
Theorem isAllowed_decision_order (k : QueryType) (m : OperationMode) :
  (forall b, PolicySpec.verdict k m b <-> isAllowed k m = b) /\
  ((In k ALWAYS_ALLOWED <-> PolicySpec.AlwaysAllowed k) /\
   (In k NEVER_ALLOWED <-> PolicySpec.NeverAllowed k) /\
   (In k WRITE_MODE_ALLOWED <-> PolicySpec.WriteModeAllowed k)) /\
  (PolicySpec.NeverAllowed k -> isAllowed k m = false) /\
  (PolicySpec.WriteModeAllowed k -> (isAllowed k m = true <-> m = WRITE_ENABLED)) /\
  (k = UNKNOWN \/ k = CREATE \/ k = ALTER \/ k = USE \/ k = SET ->
   isAllowed k m = false).
Proof.
  split; [| split; [| split; [| split]]].
  - intros b; split.
    + apply PolicyFacts.verdict_sound.
    + intros <-. apply PolicyFacts.verdict_complete.
  - apply PolicyFacts.sets_agree.
  - intros H. apply PolicyFacts.verdict_sound. now apply PolicySpec.step1_never.
  - intros H. destruct m; split; intros E; try reflexivity; try discriminate;
      unfold PolicySpec.WriteModeAllowed in H;
      decompose [or] H; subst; try reflexivity; discriminate.
  - intros H. decompose [or] H; subst; destruct m; reflexivity.
Qed.

(* ================================================================== *)
(** * Properties of the string operations *)
(* ================================================================== *)

Module JsFacts.

Import Js.

Lemma len_app (a b : str) : len (a ++ b) = len a + len b.
Proof. unfold len. rewrite length_app. lia. Qed.

Lemma len_substring0 (s : str) (n : N) : len (substring0 s n) = N.min n (len s).
Proof. unfold len, substring0. rewrite length_firstn. lia. Qed.

Lemma eqb_eq (a b : str) : eqb a b = true <-> a = b.
Proof.
  revert b; induction a as [|x a IH]; intros [|y b]; cbn; split; intros H;
    try reflexivity; try discriminate.
  - apply andb_true_iff in H as [Hx Hab]. apply N.eqb_eq in Hx.
    apply IH in Hab. now subst.
  - injection H as -> ->. rewrite N.eqb_refl. now apply IH.
Qed.

Lemma eqb_refl (a : str) : eqb a a = true.
Proof. now apply eqb_eq. Qed.

Lemma startsWith_app (p s : str) : startsWith (p ++ s) p = true.
Proof. induction p as [|y p IH]; cbn; [reflexivity|]. now rewrite N.eqb_refl. Qed.

Lemma startsWith_split (s p : str) :
  startsWith s p = true -> s = p ++ skipn (List.length p) s.
Proof.
  revert s; induction p as [|y p IH]; intros s H; [reflexivity|].
  destruct s as [|x s]; [discriminate|]. cbn in H.
  apply andb_true_iff in H as [Hx Hp]. apply N.eqb_eq in Hx. subst.
  cbn. f_equal. now apply IH.
Qed.

(** ** Decimal numerals *)

Lemma digits_rev_length (fuel : nat) (n : N) :
  (List.length (digits_rev fuel n) <= fuel)%nat.
Proof.
  revert n; induction fuel as [|f IH]; intros n; cbn; [lia|].
  destruct (n / 10 =? 0); cbn; [lia|]. specialize (IH (n / 10)). lia.
Qed.

Lemma of_N_length (n : N) : len (of_N n) <= N.succ (N.size n).
Proof.
  unfold len, of_N. rewrite length_rev.
  pose proof (digits_rev_length (S (N.to_nat (N.size n))) n). lia.
Qed.

Lemma size_below (n : N) (k : N) : n < 2 ^ k -> N.size n <= k.
Proof.
  intros H. destruct (N.eq_dec n 0) as [->|Hn]; [cbn; lia|].
  rewrite N.size_log2 by assumption.
  assert (N.log2 n < k) by (apply N.log2_lt_pow2; lia). lia.
Qed.

Lemma of_N_short (n : N) : n <= MAX_LENGTH -> len (of_N n) <= 54.
Proof.
  intros H. pose proof (of_N_length n).
  assert (N.size n <= 53) by (apply size_below; unfold MAX_LENGTH in H; lia). lia.
Qed.

(** The numeral denotes the number: the fuel of [of_N] is enough. *)
Lemma digits_rev_value (fuel : nat) (n : N) :
  n < 2 ^ N.of_nat fuel -> value_rev (digits_rev fuel n) = n.
Proof.
  revert n; induction fuel as [|f IH]; intros n H.
  - cbn in H. assert (n = 0) by lia. now subst.
  - cbn [digits_rev]. pose proof (N.div_mod n 10 ltac:(lia)) as E.
    destruct (N.eqb_spec (n / 10) 0) as [Hz|Hz]; cbn [value_rev fold_right].
    + rewrite (N.add_comm 48), N.add_sub, Hz in *. lia.
    + fold (value_rev (digits_rev f (n / 10))).
      rewrite (N.add_comm 48), N.add_sub, IH; [lia|].
      rewrite Nnat.Nat2N.inj_succ, N.pow_succ_r' in H.
      apply N.Div0.div_lt_upper_bound. lia.
Qed.

Lemma to_N_snoc (a : str) (c : unit) : to_N (a ++ [c]) = 10 * to_N a + (c - 48).
Proof. unfold to_N. now rewrite fold_left_app. Qed.

Lemma to_N_rev (ds : str) : to_N (rev ds) = value_rev ds.
Proof.
  induction ds as [|c t IH]; [reflexivity|].
  cbn [rev]. rewrite to_N_snoc, IH. unfold value_rev. cbn [fold_right]. lia.
Qed.

Lemma to_N_of_N (n : N) : to_N (of_N n) = n.
Proof.
  unfold of_N. rewrite to_N_rev. apply digits_rev_value.
  pose proof (N.size_gt n).
  rewrite Nnat.Nat2N.inj_succ, Nnat.N2Nat.id, N.pow_succ_r'. lia.
Qed.

End JsFacts.

(* ================================================================== *)
(** * Properties of the truncator *)
(* ================================================================== *)

Module TruncatorFacts.

Import JsFacts.

Lemma warning_text_parts (original : N) :
  warning_text original =
  notice_head ++ js "Original length was " ++ Js.of_N original ++
  js " characters." ++ notice_hints.
Proof.
  unfold warning_text, notice_head, notice_hints.
  change (Js.of_N CHARACTER_LIMIT) with (js "25000").
  generalize (Js.of_N original); intros d.
  repeat rewrite <- app_assoc. reflexivity.
Qed.

Lemma warning_text_len (original : N) :
  Js.len (warning_text original) = 403 + Js.len (Js.of_N original).
Proof.
  rewrite warning_text_parts. rewrite !len_app.
  generalize (Js.len (Js.of_N original)); intros d.
  change (Js.len notice_head) with 81.
  change (Js.len (js "Original length was ")) with 20.
  change (Js.len (js " characters.")) with 12.
  change (Js.len notice_hints) with 290.
  lia.
Qed.

Lemma truncated_shape (response : jsstring) :
  Js.len response <= Js.MAX_LENGTH ->
  CHARACTER_LIMIT < Js.len response ->
  let warning := warning_text (Js.len response) in
  applyCharacterLimit response true =
    Js.substring0 response (CHARACTER_LIMIT - Js.len warning) ++ warning /\
  Js.len warning < CHARACTER_LIMIT.
Proof.
  intros Hmax Hlong warning.
  assert (Hw : 403 <= Js.len warning <= 457).
  { unfold warning. rewrite warning_text_len.
    pose proof (of_N_short _ Hmax). lia. }
  unfold applyCharacterLimit. fold warning.
  destruct (N.leb_spec (Js.len response) CHARACTER_LIMIT) as [Hle|_]; [lia|].
  cbn [negb]. rewrite len_substring0.
  unfold CHARACTER_LIMIT in *.
  replace (N.min 25000 (Js.len response)) with 25000 by lia.
  destruct (Z.ltb_spec 0 (Z.of_N 25000 - Z.of_N (Js.len warning))) as [_|Hneg]; [|lia].
  destruct (Z.ltb_spec (Z.of_N 25000 - Z.of_N (Js.len warning)) (Z.of_N 25000))
    as [_|Hneg]; [|lia].
  cbn [andb]. split; [|lia].
  do 2 f_equal. lia.
Qed.

End TruncatorFacts.

(** C2.  For every string the language can hold, the output of
    [applyCharacterLimit] with the warning enabled is at most
    CHARACTER_LIMIT = 25000 code units long; an input within the limit is
    returned unchanged; an input beyond the limit gives an output of exactly
    25000 code units, made of a prefix of the input followed by the notice,
    and the notice states the original length (as the decimal numeral of
    that number) and ends with the remediation hints. *)
Theorem applyCharacterLimit_bound (response : jsstring) :
  Js.len response <= Js.MAX_LENGTH ->
  Js.len (applyCharacterLimit response true) <= CHARACTER_LIMIT /\
  (Js.len response <= CHARACTER_LIMIT ->
   applyCharacterLimit response true = response) /\
  (CHARACTER_LIMIT < Js.len response ->
   Js.len (applyCharacterLimit response true) = CHARACTER_LIMIT /\
   exists kept numeral,
     applyCharacterLimit response true =
       Js.substring0 response kept ++ warning_text (Js.len response) /\
     warning_text (Js.len response) =
       notice_head ++ js "Original length was " ++ numeral ++
       js " characters." ++ notice_hints /\
     Js.to_N numeral = Js.len response).
Proof.
  intros Hmax.
  assert (Hfit : Js.len response <= CHARACTER_LIMIT ->
                 applyCharacterLimit response true = response).
  { intros Hle. unfold applyCharacterLimit.
    destruct (N.leb_spec (Js.len response) CHARACTER_LIMIT); [reflexivity|lia]. }
  assert (Hcut : CHARACTER_LIMIT < Js.len response ->
                 Js.len (applyCharacterLimit response true) = CHARACTER_LIMIT).
  { intros Hlong.
    destruct (TruncatorFacts.truncated_shape response Hmax Hlong) as [-> Hw].
    rewrite JsFacts.len_app, JsFacts.len_substring0. lia. }
  split; [|split].
  - destruct (N.le_gt_cases (Js.len response) CHARACTER_LIMIT) as [Hle|Hlong].
    + now rewrite Hfit.
    + rewrite Hcut by assumption. lia.
  - exact Hfit.
  - intros Hlong. split; [now apply Hcut|].
    destruct (TruncatorFacts.truncated_shape response Hmax Hlong) as [E _].
    eexists _, (Js.of_N (Js.len response)). split; [exact E|]. split.
    + apply TruncatorFacts.warning_text_parts.
    + apply JsFacts.to_N_of_N.
Qed.

(** An instance: a response of 25001 letters. *)
Lemma applyCharacterLimit_bound_witness :
  Js.len (applyCharacterLimit (repeat 97 (N.to_nat 25001)) true) <= CHARACTER_LIMIT.
Proof.
  apply (applyCharacterLimit_bound (repeat 97 (N.to_nat 25001))).
  vm_compute. discriminate.
Defined.

(* ================================================================== *)
(** * Properties of the error translator *)
(* ================================================================== *)

(** C7.  The translator is a function, so a failure gets one text; but a
    lock-wait timeout of the database does not get the lock-timeout text.
    Its message contains the word [timeout], so [handleQueryError], which
    tests for a timeout first, answers with the text of the query
    deadline; the case [ER_LOCK_WAIT_TIMEOUT] of [handleMySQLError] would
    have given the lock-timeout text.  On the way from the pool the client
    has already replaced the error by a plain deadline error, for the same
    reason. *)
Theorem lock_wait_timeout_reported_as_query_timeout :
  handleQueryError Samples.lock_wait_error 30000 = handleTimeoutError 30000 /\
  handleMySQLError Samples.lock_wait_error = LOCK_WAIT_TIMEOUT_TEXT /\
  handleTimeoutError 30000 <> LOCK_WAIT_TIMEOUT_TEXT /\
  fst (client_executeQuery {| pool := Some Samples.locked_pool;
                              config_queryTimeout := 30000 |}
         (query Samples.update_input) None) =
    Threw (new_Error (js "Query execution timeout exceeded (30000ms)")) /\
  fst (handleQueryTool Js.toUpperCase_ascii Samples.no_json Samples.update_input
         (Samples.executor_on Samples.locked_pool WRITE_ENABLED) 30000 7) =
    handleTimeoutError 30000.
Proof.
  repeat split; try (vm_compute; reflexivity).
  vm_compute. discriminate.
Qed.

(* ================================================================== *)
(** * Properties of [parseQuery] *)
(* ================================================================== *)

Section ParserFacts.

Variable toUpperCase : jsstring -> jsstring.

Local Abbreviation detect := (detectQueryType toUpperCase).
Local Abbreviation ok := (authorized toUpperCase).
Local Abbreviation line := (audit_line toUpperCase).

Lemma check_all_authorized (mode : OperationMode) (statements : list jsstring) :
  (forall u, In u statements -> ok mode u = true) ->
  check_statements toUpperCase mode statements = (None, map (line mode) statements).
Proof.
  induction statements as [|s rest IH]; intros Hall; [reflexivity|].
  cbn [check_statements map].
  assert (Hs : isAllowed (detect s) mode = true) by (apply Hall; now left).
  rewrite Hs. cbn [negb]. rewrite IH by (intros u Hu; apply Hall; now right).
  unfold audit_line. now rewrite Hs.
Qed.

Lemma check_first_rejected (mode : OperationMode) (before after : list jsstring)
    (u : jsstring) :
  (forall v, In v before -> ok mode v = true) ->
  ok mode u = false ->
  check_statements toUpperCase mode (before ++ u :: after) =
    (Some (blocked (detect u) mode), map (line mode) (before ++ [u])).
Proof.
  intros Hbefore Hu. induction before as [|s rest IH].
  - unfold authorized in Hu. cbn [app check_statements map]. rewrite Hu.
    cbn [negb]. unfold audit_line. now rewrite Hu.
  - cbn [app check_statements map].
    assert (Hs : isAllowed (detect s) mode = true) by (apply Hbefore; now left).
    rewrite Hs. cbn [negb]. rewrite IH by (intros v Hv; apply Hbefore; now right).
    unfold audit_line at 2. now rewrite Hs.
Qed.

(** A list has a first statement that is not authorized, or none. *)
Lemma first_rejected_or_none (mode : OperationMode) (statements : list jsstring) :
  (forall u, In u statements -> ok mode u = true) \/
  exists before u after,
    statements = before ++ u :: after /\
    (forall v, In v before -> ok mode v = true) /\
    ok mode u = false.
Proof.
  induction statements as [|s rest IH].
  - left. intros u [].
  - destruct (ok mode s) eqn:Hs.
    + destruct IH as [Hall | (before & u & after & -> & Hb & Hu)].
      * left. intros u [E|Hu]; [subst u; exact Hs | exact (Hall u Hu)].
      * right. exists (s :: before), u, after.
        split; [reflexivity|]. split; [|exact Hu].
        intros v [E|Hv]; [subst v; exact Hs | exact (Hb v Hv)].
    + right. exists [], s, rest.
      split; [reflexivity|]. split; [intros v []|exact Hs].
Qed.

Lemma parseQuery_nonempty (query : jsstring) (mode : OperationMode) :
  splitStatements (normalizeQuery query) <> [] ->
  parseQuery_logged toUpperCase query mode =
    match check_statements toUpperCase mode (splitStatements (normalizeQuery query)) with
    | (Some verdict, lines) => (verdict, lines)
    | (None, lines) =>
        ({| queryType := detect (hd [] (splitStatements (normalizeQuery query)));
            allowed := true; reason := None; suggestion := None |}, lines)
    end.
Proof.
  intros Hne. unfold parseQuery_logged.
  destruct (splitStatements (normalizeQuery query)) as [|s rest]; [contradiction|].
  reflexivity.
Qed.

Lemma parseQuery_empty (query : jsstring) (mode : OperationMode) :
  splitStatements (normalizeQuery query) = [] ->
  parseQuery_logged toUpperCase query mode =
    ({| queryType := UNKNOWN; allowed := false;
        reason := Some (js "Empty or invalid query");
        suggestion := Some (js "Please provide a valid SQL query.") |}, []).
Proof. intros E. unfold parseQuery_logged. now rewrite E. Qed.

(** The request passes exactly when it has a statement and every statement
    is authorized. *)
Lemma parseQuery_allowed_iff (query : jsstring) (mode : OperationMode) :
  allowed (parseQuery toUpperCase query mode) = true <->
  splitStatements (normalizeQuery query) <> [] /\
  forall u, In u (splitStatements (normalizeQuery query)) -> ok mode u = true.
Proof.
  unfold parseQuery.
  destruct (splitStatements (normalizeQuery query)) as [|s rest] eqn:E.
  - rewrite parseQuery_empty by assumption. cbn. split; [discriminate|].
    intros [H _]. now contradiction H.
  - rewrite parseQuery_nonempty by (rewrite E; discriminate). rewrite E.
    destruct (first_rejected_or_none mode (s :: rest))
      as [Hall | (before & u & after & Es & Hb & Hu)].
    + rewrite check_all_authorized by assumption. cbn. split; [|reflexivity].
      intros _. split; [discriminate|assumption].
    + rewrite Es, check_first_rejected by assumption. cbn. split; [discriminate|].
      intros [_ Hall]. rewrite Hall in Hu; [discriminate|].
      apply in_or_app. right. now left.
Qed.

End ParserFacts.

(** C5.  For every request with at least one statement unit: the batch is
    authorized exactly when every unit is authorized on its own; the units
    are visited in source order and the verdict (kind, reason, suggestion)
    is that of the first unit that is rejected, the audit trail holding
    the units up to that one and none behind it; when no unit is rejected
    the reported kind is that of the first unit. *)
Theorem parseQuery_batch (toUpperCase : jsstring -> jsstring)
    (query : jsstring) (mode : OperationMode) :
  let units := splitStatements (normalizeQuery query) in
  units <> [] ->
  (allowed (parseQuery toUpperCase query mode) = true <->
   forall u, In u units -> authorized toUpperCase mode u = true) /\
  (forall before u after,
     units = before ++ u :: after ->
     (forall v, In v before -> authorized toUpperCase mode v = true) ->
     authorized toUpperCase mode u = false ->
     parseQuery_logged toUpperCase query mode =
       ({| queryType := detectQueryType toUpperCase u;
           allowed := false;
           reason := Some (explainBlocked (detectQueryType toUpperCase u) mode);
           suggestion := Some (suggestFix (detectQueryType toUpperCase u) mode) |},
        map (audit_line toUpperCase mode) (before ++ [u]))) /\
  ((forall u, In u units -> authorized toUpperCase mode u = true) ->
   parseQuery_logged toUpperCase query mode =
     ({| queryType := detectQueryType toUpperCase (hd [] units);
         allowed := true; reason := None; suggestion := None |},
      map (audit_line toUpperCase mode) units)).
Proof.
  intros units Hne. split; [|split].
  - rewrite parseQuery_allowed_iff. fold units. tauto.
  - intros before u after Es Hb Hu.
    rewrite parseQuery_nonempty by assumption. fold units.
    rewrite Es, check_first_rejected by assumption. reflexivity.
  - intros Hall. rewrite parseQuery_nonempty by assumption. fold units.
    now rewrite check_all_authorized by assumption.
Qed.

(** An instance: a SELECT followed by a DROP is rejected as a DROP, even
    in write mode. *)
Lemma parseQuery_batch_witness :
  queryType (parseQuery Js.toUpperCase_ascii Samples.select_then_drop WRITE_ENABLED) = DROP /\
  allowed (parseQuery Js.toUpperCase_ascii Samples.select_then_drop WRITE_ENABLED) = false.
Proof.
  destruct (parseQuery_batch Js.toUpperCase_ascii Samples.select_then_drop WRITE_ENABLED)
    as (_ & Hfirst & _).
  - vm_compute. discriminate.
  - unfold parseQuery.
    rewrite (Hfirst [js "SELECT * FROM a.b"] (js "DROP TABLE a.b") []).
    + split; reflexivity.
    + vm_compute. reflexivity.
    + intros v [<-|[]]. vm_compute. reflexivity.
    + vm_compute. reflexivity.
Defined.

(* ================================================================== *)
(** * Properties of the executor *)
(* ================================================================== *)

Section ExecutorFacts.

Variable toUpperCase : jsstring -> jsstring.

Lemma client_sends_once (this : MySQLClient) (p : Pool) (sql : jsstring) :
  pool this = Some p ->
  snd (client_executeQuery this sql None) =
    [{| opt_sql := sql; opt_timeout := config_queryTimeout this |}].
Proof.
  intros Hp. unfold client_executeQuery. rewrite Hp.
  destruct (p _) as [result | [e | c m q t]]; try reflexivity.
  destruct (Js.includes _ _); reflexivity.
Qed.

Lemma executor_queries_allowed (this : QueryExecutor) (t : N) (q : jsstring) :
  allowed (parseQuery toUpperCase q (operationMode this)) = true ->
  queries (snd (executor_executeQuery toUpperCase this t q)) =
    snd (client_executeQuery (mysqlClient this) q None).
Proof.
  unfold parseQuery, executor_executeQuery.
  destruct (parseQuery_logged toUpperCase q (operationMode this)) as [r lines].
  cbn [fst]. intros ->. cbn [negb].
  destruct (client_executeQuery (mysqlClient this) q None) as [[[rows fields] | e] sent];
    reflexivity.
Qed.

Lemma executor_blocked (this : QueryExecutor) (t : N) (q : jsstring) :
  allowed (parseQuery toUpperCase q (operationMode this)) = false ->
  queries (snd (executor_executeQuery toUpperCase this t q)) = [] /\
  exists text, fst (executor_executeQuery toUpperCase this t q) =
                 Threw (new_Error (js "Query blocked: " ++ text)).
Proof.
  unfold parseQuery, executor_executeQuery.
  destruct (parseQuery_logged toUpperCase q (operationMode this)) as [r lines].
  cbn [fst]. intros ->. cbn [negb]. split; [reflexivity|]. eexists. reflexivity.
Qed.

End ExecutorFacts.

(** C9.  When the request has statement units and every one of them is
    authorized, the executor hands the raw text of the request, as it was
    received, to the pool in exactly one query (under the configured
    timeout), and what the executor returns or throws is made from the
    answer of the pool to that query, whatever the pool; the normalized
    text is used for the verdict only, so a raw text that normalization
    changes is still sent as it is. *)
Theorem executor_forwards_raw_query (toUpperCase : jsstring -> jsstring)
    (this : QueryExecutor) (p : Pool) (executionTime : N) (raw : jsstring) :
  pool (mysqlClient this) = Some p ->
  splitStatements (normalizeQuery raw) <> [] ->
  (forall u, In u (splitStatements (normalizeQuery raw)) ->
             authorized toUpperCase (operationMode this) u = true) ->
  queries (snd (executor_executeQuery toUpperCase this executionTime raw)) =
    [{| opt_sql := raw; opt_timeout := config_queryTimeout (mysqlClient this) |}] /\
  fst (executor_executeQuery toUpperCase this executionTime raw) =
    match p {| opt_sql := raw; opt_timeout := config_queryTimeout (mysqlClient this) |} with
    | Returned (rows, fields) => Returned (formatResult rows fields executionTime)
    | Threw (ErrorInstance e) =>
        if Js.includes (message e) (js "timeout")
        then Threw (with_execution_time
                      (new_Error (js "Query execution timeout exceeded (" ++
                                  Js.of_N (config_queryTimeout (mysqlClient this)) ++
                                  js "ms)"))
                      executionTime)
        else Threw (with_execution_time (ErrorInstance e) executionTime)
    | Threw (OtherValue c m q text) => Threw (OtherValue c m q text)
    end /\
  (normalizeQuery raw <> raw ->
   map opt_sql (queries (snd (executor_executeQuery toUpperCase this executionTime raw)))
     <> [normalizeQuery raw]).
Proof.
  intros Hp Hne Hall.
  assert (A : allowed (parseQuery toUpperCase raw (operationMode this)) = true).
  { apply parseQuery_allowed_iff. now split. }
  assert (E : queries (snd (executor_executeQuery toUpperCase this executionTime raw)) =
              [{| opt_sql := raw; opt_timeout := config_queryTimeout (mysqlClient this) |}]).
  { rewrite executor_queries_allowed by exact A.
    now apply client_sends_once with (p := p). }
  split; [exact E|]. split.
  - clear E. revert A. unfold parseQuery, executor_executeQuery.
    destruct (parseQuery_logged toUpperCase raw (operationMode this)) as [v lines].
    cbn [fst]. intros ->. cbn [negb]. unfold client_executeQuery. rewrite Hp.
    destruct (p _) as [[rows fields] | [e | c m q text]]; try reflexivity.
    destruct (Js.includes (message e) (js "timeout")); reflexivity.
  - intros Hchanged. rewrite E. cbn. intros H. injection H as H. now apply Hchanged.
Qed.

(** An instance: the comment of the request reaches the database, which
    here answers with the text it was given. *)
Lemma executor_forwards_raw_query_witness :
  executor_executeQuery Js.toUpperCase_ascii
    (Samples.executor_on Samples.echo_pool READ_ONLY) 7 Samples.commented_query =
  (Returned (tabular [{| field_name := js "sql"; field_type := Some 253 |}]
                     [[(js "sql", CString (js "SELECT 1 -- note"))]] 7),
   {| audit := [js "Query EXECUTED [READ_ONLY] (SELECT): SELECT 1"];
      queries := [{| opt_sql := js "SELECT 1 -- note"; opt_timeout := 30000 |}] |}) /\
  normalizeQuery Samples.commented_query = js "SELECT 1".
Proof.
  split; [|vm_compute; reflexivity].
  destruct (executor_forwards_raw_query Js.toUpperCase_ascii
              (Samples.executor_on Samples.echo_pool READ_ONLY) Samples.echo_pool 7
              Samples.commented_query) as (Eq & Eo & _).
  - reflexivity.
  - vm_compute. discriminate.
  - intros u Hu. vm_compute in Hu. destruct Hu as [<-|[]]. vm_compute. reflexivity.
  - destruct (executor_executeQuery Js.toUpperCase_ascii
                (Samples.executor_on Samples.echo_pool READ_ONLY) 7
                Samples.commented_query) as [outcome [lines sent]] eqn:R.
    cbn [fst snd queries] in Eq, Eo. rewrite Eq, Eo.
    apply (f_equal (fun r => audit (snd r))) in R. cbn [snd audit] in R. rewrite <- R.
    vm_compute. reflexivity.
Defined.

(** C10.  A request whose normalized text has no statement unit gets, in
    either mode, the verdict UNKNOWN, not allowed, with the reason
    [Empty or invalid query] and the suggestion to provide a valid query;
    [parseQuery] returns it (it has no failing path), nothing is logged,
    and the executor raises the rejection without a query to the pool. *)
Theorem parseQuery_no_statement (toUpperCase : jsstring -> jsstring)
    (raw : jsstring) (mode : OperationMode) :
  splitStatements (normalizeQuery raw) = [] ->
  parseQuery_logged toUpperCase raw mode =
    ({| queryType := UNKNOWN; allowed := false;
        reason := Some (js "Empty or invalid query");
        suggestion := Some (js "Please provide a valid SQL query.") |}, []) /\
  forall (this : QueryExecutor) (executionTime : N),
    operationMode this = mode ->
    executor_executeQuery toUpperCase this executionTime raw =
      (Threw (new_Error (js "Query blocked: Empty or invalid query" ++ nl ++ nl ++
                         js "Please provide a valid SQL query.")),
       {| audit := []; queries := [] |}).
Proof.
  intros E. pose proof (parseQuery_empty toUpperCase raw mode E) as P.
  split; [exact P|].
  intros this t <-. unfold executor_executeQuery. rewrite P. reflexivity.
Qed.

(** An instance: a request of a comment, blanks and terminators. *)
Lemma parseQuery_no_statement_witness :
  parseQuery Js.toUpperCase_ascii Samples.nothing_query READ_ONLY =
    {| queryType := UNKNOWN; allowed := false;
       reason := Some (js "Empty or invalid query");
       suggestion := Some (js "Please provide a valid SQL query.") |}.
Proof.
  destruct (parseQuery_no_statement Js.toUpperCase_ascii Samples.nothing_query READ_ONLY)
    as [E _].
  - vm_compute. reflexivity.
  - unfold parseQuery. rewrite E. reflexivity.
Defined.

(* ================================================================== *)
(** * Properties of the result flag *)
(* ================================================================== *)

Lemma formatResult_truncated (rows : NativeRows) (fields : list FieldPacket) (t : N) :
  truncated (formatResult rows fields t) = Some false.
Proof. destruct rows as [items [ok|] | ok |]; reflexivity. Qed.

Lemma executor_result_shape (toUpperCase : jsstring -> jsstring)
    (this : QueryExecutor) (t : N) (q : jsstring) (r : QueryResult) (effects : Effects) :
  executor_executeQuery toUpperCase this t q = (Returned r, effects) ->
  exists rows fields, r = formatResult rows fields t.
Proof.
  unfold executor_executeQuery.
  destruct (parseQuery_logged toUpperCase q (operationMode this)) as [v lines].
  destruct (negb (allowed v)); [discriminate|].
  destruct (client_executeQuery (mysqlClient this) q None) as [[[rows fields] | e] sent];
    [|discriminate].
  intros H. injection H as <- _. now exists rows, fields.
Qed.

Lemma applyCharacterLimit_changes (text : jsstring) :
  Js.len text <= Js.MAX_LENGTH ->
  (applyCharacterLimit text true <> text <-> CHARACTER_LIMIT < Js.len text).
Proof.
  intros Hmax. split.
  - intros Hne. destruct (N.le_gt_cases (Js.len text) CHARACTER_LIMIT) as [Hle|Hgt];
      [|assumption].
    exfalso. apply Hne. unfold applyCharacterLimit.
    destruct (N.leb_spec (Js.len text) CHARACTER_LIMIT); [reflexivity|lia].
  - intros Hlong E.
    destruct (TruncatorFacts.truncated_shape text Hmax Hlong) as [S Hw].
    rewrite S in E. apply (f_equal Js.len) in E.
    rewrite JsFacts.len_app, JsFacts.len_substring0 in E. lia.
Qed.

(** C3, as the code has it.  For every request that is executed, the
    [truncated] flag of the result, and the one [formatAsJSON] puts in the
    metadata block, is false, whatever the length of the rendered text.
    The character limit is applied to the rendered text afterwards: the
    response differs from the rendered text exactly when the rendered text
    is longer than CHARACTER_LIMIT, and nothing records that in the
    result. *)
Theorem truncated_flag_is_false (toUpperCase : jsstring -> jsstring)
    (JSON_stringify : JsonOutput -> jsstring)
    (input : QueryInput) (executor : QueryExecutor) (timeout executionTime : N)
    (result : QueryResult) (effects : Effects) :
  executor_executeQuery toUpperCase executor executionTime (query input) =
    (Returned result, effects) ->
  truncated result = Some false /\
  meta_truncated (out_metadata (json_output result)) = false /\
  let formatted := formatted_text JSON_stringify input result in
  fst (handleQueryTool toUpperCase JSON_stringify input executor timeout executionTime) =
    applyCharacterLimit formatted true /\
  (Js.len formatted <= Js.MAX_LENGTH ->
   (applyCharacterLimit formatted true <> formatted <->
    CHARACTER_LIMIT < Js.len formatted)).
Proof.
  intros Hrun.
  destruct (executor_result_shape _ _ _ _ _ _ Hrun) as (rows & fields & ->).
  assert (Hflag : truncated (formatResult rows fields executionTime) = Some false)
    by apply formatResult_truncated.
  split; [exact Hflag|]. split.
  - unfold json_output. cbn. now rewrite Hflag.
  - intros formatted. split.
    + unfold handleQueryTool. now rewrite Hrun.
    + apply applyCharacterLimit_changes.
Qed.

(** An instance: an UPDATE that the database acknowledges. *)
Lemma truncated_flag_is_false_witness :
  truncated (acknowledgement {| ok_affectedRows := 0; ok_insertId := None;
                                ok_changedRows := None |} 7) = Some false.
Proof.
  apply (truncated_flag_is_false Js.toUpperCase_ascii Samples.no_json
           Samples.update_input (Samples.executor_on Samples.ok_pool WRITE_ENABLED)
           30000 7 _
           {| audit := [js "Query EXECUTED [WRITE_ENABLED] (UPDATE): UPDATE shop.products SET stock = 0 WHERE id = 1"];
              queries := [{| opt_sql := query Samples.update_input;
                             opt_timeout := 30000 |}] |}).
  vm_compute. reflexivity.
Defined.

(** C3, as the specification has it, fails: the request below is executed,
    its rendered text is longer than CHARACTER_LIMIT and is cut, and the
    flag of the result and of the metadata block is false. *)
Lemma truncated_flag_counterexample :
  let input := Samples.select_input in
  let executor := Samples.executor_on Samples.long_pool READ_ONLY in
  fst (executor_executeQuery Js.toUpperCase_ascii executor 7 (query input)) =
    Returned Samples.long_result /\
  CHARACTER_LIMIT < Js.len (formatted_text Samples.no_json input Samples.long_result) /\
  ~ (bool_or_false (truncated Samples.long_result) = true <->
     CHARACTER_LIMIT < Js.len (formatted_text Samples.no_json input Samples.long_result)) /\
  ~ (meta_truncated (out_metadata (json_output Samples.long_result)) = true <->
     CHARACTER_LIMIT < Js.len (formatted_text Samples.no_json input Samples.long_result)).
Proof.
  assert (Hlen : CHARACTER_LIMIT <
                 Js.len (formatted_text Samples.no_json Samples.select_input
                           Samples.long_result)).
  { vm_compute. reflexivity. }
  cbv zeta. split; [reflexivity|]. split; [exact Hlen|].
  split; intros [_ H]; specialize (H Hlen); vm_compute in H; discriminate.
Qed.

(* ================================================================== *)
(** * Properties of the classifier *)
(* ================================================================== *)

Module ClassifierFacts.

Lemma split_ws_from_nonempty (b : bool) (s : jsstring) : Js.split_ws_from b s <> [].
Proof.
  revert b; induction s as [|c t IH]; intros b; cbn; [discriminate|].
  destruct (Js.is_ws c).
  - destruct b; [apply IH | discriminate].
  - destruct (Js.split_ws_from false t); discriminate.
Qed.

(** The first element of [split(/\s+/)] is the text before the first
    whitespace character. *)
Lemma hd_split_ws (s : jsstring) : hd [] (Js.split_ws s) = Js.first_word s.
Proof.
  unfold Js.split_ws, Js.first_word. induction s as [|c t IH]; [reflexivity|].
  cbn. destruct (Js.is_ws c); cbn; [reflexivity|].
  pose proof (split_ws_from_nonempty false t) as Hne.
  destruct (Js.split_ws_from false t) as [|seg rest]; [contradiction|].
  cbn in *. now rewrite IH.
Qed.

Lemma first_word_rest (s : jsstring) :
  exists r, s = Js.first_word s ++ r /\ (r = [] \/ exists c t, r = c :: t /\ Js.is_ws c = true).
Proof.
  unfold Js.first_word. induction s as [|c t (r & E & Hr)].
  - exists []. split; [reflexivity | now left].
  - cbn. destruct (Js.is_ws c) eqn:W; cbn.
    + exists (c :: t). split; [reflexivity|]. right. now exists c, t.
    + exists r. split; [now rewrite <- E | exact Hr].
Qed.

Lemma ws_not_word (c : Js.unit) : Js.is_ws c = true -> Js.is_word c = false.
Proof.
  intros W. destruct (Js.is_word c) eqn:D; [exfalso | reflexivity].
  unfold Js.is_ws, Js.is_word in *.
  rewrite ?orb_true_iff, ?andb_true_iff, ?N.leb_le, ?N.eqb_eq in *. lia.
Qed.

(** The [switch] of the source is the keyword table. *)
Lemma keyword_case_table (token : jsstring) : keyword_case token = classify_token token.
Proof.
  unfold keyword_case, classify_token, KEYWORD_TABLE. cbn [find fst snd].
  repeat (destruct (Js.eqb token _); [reflexivity|]). reflexivity.
Qed.

(** ** Positions of a text *)

Lemma last_unit_app (a w : jsstring) : w <> [] -> last_unit (a ++ w) = last_unit w.
Proof.
  intros Hw. unfold last_unit. rewrite rev_app_distr.
  destruct (rev w) as [|x r] eqn:E; [|reflexivity].
  apply (f_equal (@rev _)) in E. rewrite rev_involutive in E. now contradiction Hw.
Qed.

Lemma position_step (text : jsstring) (i : nat) :
  (i < List.length text)%nat ->
  exists c, skipn i text = c :: skipn (S i) text /\ prev_at text (S i) = Some c.
Proof.
  revert i; induction text as [|x t IH]; intros i Hi; [cbn in Hi; lia|].
  destruct i as [|i].
  - exists x. split; reflexivity.
  - destruct (IH i) as (c & E & P); [cbn in Hi; lia|].
    exists c. split; [exact E|].
    unfold prev_at in *. change (firstn (S (S i)) (x :: t)) with ([x] ++ firstn (S i) t).
    rewrite last_unit_app; [exact P|].
    intros Z. rewrite Z in P. discriminate.
Qed.

Lemma first_match_unfold {A : Type} (here : option Js.unit -> jsstring -> option A)
    (prev : option Js.unit) (s : jsstring) :
  first_match here prev s =
  match here prev s with
  | Some a => Some a
  | None => match s with [] => None | c :: t => first_match here (Some c) t end
  end.
Proof. destruct s; reflexivity. Qed.

Section Search.

Context {A : Type} (here : option Js.unit -> jsstring -> option A) (text : jsstring).

Local Abbreviation at_ i := (here (prev_at text i) (skipn i text)).
Local Abbreviation from i := (first_match here (prev_at text i) (skipn i text)).

Lemma first_match_skip (i j : nat) :
  (i <= j)%nat -> (j <= List.length text)%nat ->
  (forall k, (i <= k < j)%nat -> at_ k = None) ->
  from i = from j.
Proof.
  intros Hij. induction Hij as [|m Hm IH]; intros Hj Hnone; [reflexivity|].
  rewrite IH by (try lia; intros k Hk; apply Hnone; lia).
  rewrite first_match_unfold. rewrite (Hnone m) by lia.
  destruct (position_step text m) as (c & -> & ->); [lia|]. reflexivity.
Qed.

Lemma first_match_found (i j : nat) (a : A) :
  (i <= j)%nat -> (j <= List.length text)%nat ->
  (forall k, (i <= k < j)%nat -> at_ k = None) ->
  at_ j = Some a ->
  from i = Some a.
Proof.
  intros Hij Hj Hnone Hat. rewrite (first_match_skip i j) by assumption.
  rewrite first_match_unfold. now rewrite Hat.
Qed.

Lemma first_match_none (i : nat) :
  (i <= List.length text)%nat ->
  (forall k, (i <= k <= List.length text)%nat -> at_ k = None) ->
  from i = None.
Proof.
  intros Hi Hnone.
  rewrite (first_match_skip i (List.length text))
    by (try lia; intros k Hk; apply Hnone; lia).
  rewrite first_match_unfold. rewrite Hnone by lia. now rewrite skipn_all.
Qed.

End Search.

Lemma first_match_origin {A : Type} (here : option Js.unit -> jsstring -> option A)
    (prev : option Js.unit) (s : jsstring) (a : A) :
  first_match here prev s = Some a -> exists p r, here p r = Some a.
Proof.
  revert prev; induction s as [|c t IH]; intros prev; rewrite first_match_unfold.
  - destruct (here prev []) eqn:E; [|discriminate]. intros H; injection H as <-. eauto.
  - destruct (here prev (c :: t)) eqn:E.
    + intros H; injection H as <-. eauto.
    + apply IH.
Qed.

Lemma starts_at (text w : jsstring) (k : nat) :
  w <> [] ->
  Js.startsWith (skipn k text) w = true ->
  skipn (List.length w) (skipn k text) = skipn (k + List.length w) text /\
  prev_at text (k + List.length w) = last_unit w /\
  (k + List.length w <= List.length text)%nat.
Proof.
  intros Hw Hs. pose proof (JsFacts.startsWith_split _ _ Hs) as E.
  assert (Hk : (k <= List.length text)%nat).
  { destruct (Nat.le_gt_cases k (List.length text)) as [H|H]; [exact H|].
    rewrite skipn_all2 in Hs by lia. destruct w; [contradiction|discriminate]. }
  split; [|split].
  - rewrite skipn_skipn. f_equal. lia.
  - unfold prev_at. rewrite <- (firstn_skipn k text) at 1. rewrite E.
    replace k with (List.length (firstn k text)) at 1 by (rewrite length_firstn; lia).
    rewrite firstn_app_2, firstn_app, Nat.sub_diag, firstn_all. cbn [firstn].
    rewrite app_nil_r. now apply last_unit_app.
  - rewrite <- (firstn_skipn k text) at 1. rewrite E, !length_app, length_firstn. lia.
Qed.

Lemma match_cte_dml (upper kw : jsstring) :
  match_cte upper = Some kw -> In kw DML_KEYWORDS.
Proof.
  intros H. apply first_match_origin in H as (p & r & H).
  unfold cte_here in H. destruct (whole_word p WITH r); [|discriminate].
  apply first_match_origin in H as (p' & r' & H).
  unfold dml_here in H. now apply find_some in H as [H _].
Qed.

(** A text whose first word is WITH starts with the introducer as a whole
    word, so the search for the keyword starts at offset 4. *)
Lemma cte_at_start (upper : jsstring) :
  Js.first_word upper = WITH ->
  Js.startsWith upper WITH = true /\
  cte_here None upper = first_match dml_here (prev_at upper 4) (skipn 4 upper).
Proof.
  intros Hw. destruct (first_word_rest upper) as (r & E & Hr). rewrite Hw in E.
  assert (Hs : Js.startsWith upper WITH = true).
  { rewrite E. apply JsFacts.startsWith_app. }
  split; [exact Hs|].
  destruct (starts_at upper WITH 0) as (_ & P & _); [discriminate | exact Hs |].
  cbn [Nat.add List.length WITH Js.lit] in P.
  unfold cte_here, whole_word. rewrite Hs.
  replace (boundary None upper) with true by (rewrite E; reflexivity).
  replace (boundary (last_unit WITH) (skipn (List.length WITH) upper)) with true.
  - cbn [andb]. unfold scan_dml. now rewrite P.
  - rewrite E. change (skipn (List.length WITH) (WITH ++ r)) with r.
    destruct Hr as [-> | (c & t & -> & W)]; [reflexivity|].
    unfold boundary. cbn. now rewrite (ws_not_word c W).
Qed.

(** With no DML keyword from offset 4 on, the expression matches nowhere. *)
Lemma match_cte_none (upper : jsstring) :
  (forall j, (4 <= j <= List.length upper)%nat -> dml_at upper j = None) ->
  match_cte upper = None.
Proof.
  intros Hnone. unfold match_cte.
  change (first_match cte_here None upper)
    with (first_match cte_here (prev_at upper 0) (skipn 0 upper)).
  apply first_match_none; [lia|]. intros k Hk.
  unfold cte_here. destruct (whole_word _ WITH _) eqn:W; [|reflexivity].
  unfold whole_word in W. apply andb_true_iff in W as [W _].
  apply andb_true_iff in W as [_ W].
  destruct (starts_at upper WITH k) as (S4 & P & L); [discriminate | exact W |].
  unfold scan_dml. rewrite S4, <- P.
  apply first_match_none; [exact L|].
  intros j Hj. apply Hnone. cbn in Hj. lia.
Qed.

End ClassifierFacts.

Section ClassifierTheorems.

Variable toUpperCase : jsstring -> jsstring.

Lemma detect_by_first_word (s : jsstring) :
  Js.startsWith (toUpperCase s) WITH = false \/ match_cte (toUpperCase s) = None ->
  detectQueryType toUpperCase s = classify_token (Js.first_word (toUpperCase s)).
Proof.
  intros H. unfold detectQueryType, extractFirstKeyword.
  rewrite ClassifierFacts.keyword_case_table, ClassifierFacts.hd_split_ws.
  destruct H as [-> | H]; [reflexivity|].
  rewrite H. now destruct (Js.startsWith _ _).
Qed.

Lemma detect_by_lookahead (s kw : jsstring) :
  Js.startsWith (toUpperCase s) WITH = true ->
  match_cte (toUpperCase s) = Some kw ->
  detectQueryType toUpperCase s = classify_token kw.
Proof.
  intros Hs Hm. unfold detectQueryType, extractFirstKeyword.
  now rewrite ClassifierFacts.keyword_case_table, Hs, Hm.
Qed.

End ClassifierTheorems.

(** C4, as the code has it.  [detectQueryType] is a total function to the
    kinds.  Unless the lookahead for common table expressions applies (the
    uppercased unit begins with WITH and the expression of the lookahead
    matches), the kind is the one the keyword table gives for the first
    whitespace-delimited token of the uppercased unit, and a token that is
    not in the table gives UNKNOWN; when the lookahead applies, the kind is
    the one the table gives for the keyword found, one of SELECT, INSERT,
    UPDATE and DELETE. *)
Theorem detectQueryType_table (toUpperCase : jsstring -> jsstring) (s : jsstring) :
  let upper := toUpperCase s in
  (Js.startsWith upper WITH = false \/ match_cte upper = None ->
   detectQueryType toUpperCase s = classify_token (Js.first_word upper)) /\
  (forall kw,
     Js.startsWith upper WITH = true -> match_cte upper = Some kw ->
     detectQueryType toUpperCase s = classify_token kw /\ In kw DML_KEYWORDS) /\
  (forall token,
     (forall entry, In entry KEYWORD_TABLE -> token <> js (fst entry)) ->
     classify_token token = UNKNOWN) /\
  (forall entry, In entry KEYWORD_TABLE -> classify_token (js (fst entry)) = snd entry).
Proof.
  intros upper. split; [|split; [|split]].
  - apply detect_by_first_word.
  - intros kw Hs Hm. split.
    + now apply detect_by_lookahead.
    + now apply ClassifierFacts.match_cte_dml with (upper := upper).
  - intros token Hout. unfold classify_token.
    destruct (find _ KEYWORD_TABLE) as [entry|] eqn:F; [|reflexivity].
    apply find_some in F as [Hin Heq]. apply JsFacts.eqb_eq in Heq.
    now contradiction (Hout entry Hin).
  - intros entry Hin. unfold KEYWORD_TABLE in Hin. cbn in Hin.
    repeat (destruct Hin as [<- | Hin]; [reflexivity|]). destruct Hin.
Qed.

(** C4, as the specification has it, fails on a common table expression:
    its first token is WITH, which the table does not hold, and the kind is
    SELECT. *)
Lemma detectQueryType_table_counterexample :
  let upper := Js.toUpperCase_ascii Samples.cte_query in
  Js.first_word upper = js "WITH" /\
  classify_token (Js.first_word upper) = UNKNOWN /\
  detectQueryType Js.toUpperCase_ascii Samples.cte_query = SELECT /\
  detectQueryType Js.toUpperCase_ascii Samples.cte_query <>
    classify_token (Js.first_word upper).
Proof.
  cbv zeta. repeat split; try (vm_compute; reflexivity).
  vm_compute. discriminate.
Qed.

(** C6, as the code has it.  For a unit whose uppercased text has WITH as
    its first whitespace-delimited token, the kind is that of the first DML
    keyword (SELECT, INSERT, UPDATE or DELETE) that stands as a whole word
    behind the introducer, that is at an offset from 4 on; with no such
    keyword the kind is UNKNOWN.  For a unit whose uppercased text does not
    begin with the four letters WITH there is no lookahead: the kind is
    the one of the first token. *)
Theorem cte_lookahead (toUpperCase : jsstring -> jsstring) (s : jsstring) :
  let upper := toUpperCase s in
  (Js.first_word upper = WITH ->
   (forall i kw,
      (4 <= i <= List.length upper)%nat ->
      dml_at upper i = Some kw ->
      (forall j, (4 <= j < i)%nat -> dml_at upper j = None) ->
      detectQueryType toUpperCase s = classify_token kw /\ In kw DML_KEYWORDS) /\
   ((forall j, (4 <= j <= List.length upper)%nat -> dml_at upper j = None) ->
    detectQueryType toUpperCase s = UNKNOWN)) /\
  (Js.startsWith upper WITH = false ->
   detectQueryType toUpperCase s = classify_token (Js.first_word upper)).
Proof.
  intros upper. split.
  - intros Hw. destruct (ClassifierFacts.cte_at_start upper Hw) as [Hs Hc]. split.
    + intros i kw Hi Hat Hnone.
      assert (Hm : match_cte upper = Some kw).
      { unfold match_cte. rewrite ClassifierFacts.first_match_unfold, Hc.
        rewrite (ClassifierFacts.first_match_found dml_here upper 4 i kw);
          [reflexivity | lia | lia | exact Hnone | exact Hat]. }
      split; [now apply detect_by_lookahead|].
      now apply ClassifierFacts.match_cte_dml with (upper := upper).
    + intros Hnone.
      rewrite detect_by_first_word
        by (right; now apply ClassifierFacts.match_cte_none).
      fold upper. rewrite Hw. reflexivity.
  - intros Hs. apply detect_by_first_word. now left.
Qed.

(** An instance: in the common table expression the first DML keyword
    behind the introducer stands at offset 11. *)
Lemma cte_lookahead_witness :
  detectQueryType Js.toUpperCase_ascii Samples.cte_query = SELECT.
Proof.
  destruct (cte_lookahead Js.toUpperCase_ascii Samples.cte_query) as [Hwith _].
  destruct Hwith as [Hfirst _]; [vm_compute; reflexivity|].
  destruct (Hfirst 11%nat (js "SELECT")) as [E _].
  - change (List.length (Js.toUpperCase_ascii Samples.cte_query)) with 29%nat. lia.
  - vm_compute. reflexivity.
  - intros j Hj.
    assert (D : (j = 4 \/ j = 5 \/ j = 6 \/ j = 7 \/ j = 8 \/ j = 9 \/ j = 10)%nat) by lia.
    decompose [or] D; subst; vm_compute; reflexivity.
  - rewrite E. vm_compute. reflexivity.
Defined.

(** C6, as the specification has it, fails in its last part: the first
    token of the unit below is not the introducer (the quoted name follows
    it without a blank), the table gives UNKNOWN for that token, and the
    lookahead is applied all the same and gives SELECT. *)
Lemma cte_lookahead_counterexample :
  let upper := Js.toUpperCase_ascii Samples.quoted_cte_query in
  Js.first_word upper <> WITH /\
  classify_token (Js.first_word upper) = UNKNOWN /\
  detectQueryType Js.toUpperCase_ascii Samples.quoted_cte_query = SELECT /\
  detectQueryType Js.toUpperCase_ascii Samples.quoted_cte_query <>
    classify_token (Js.first_word upper).
Proof.
  cbv zeta. repeat split; try (vm_compute; reflexivity); vm_compute; discriminate.
Qed.

(* ================================================================== *)
(** * Properties of the normalizer and the splitter *)
(* ================================================================== *)

Module NormalizerFacts.

(** ** Global replacement *)

Section Replace.

Variables (matcher : jsstring -> option nat) (repl : jsstring).

Lemma replace_skip (x y : jsstring) :
  Js.replace_from matcher repl (List.length x) (x ++ y) =
  Js.replace_from matcher repl O y.
Proof. induction x as [|c x IH]; [reflexivity | exact IH]. Qed.

(** A match at the head is replaced, and the scan resumes behind it. *)
Lemma replace_match (x y : jsstring) :
  x <> [] ->
  matcher (x ++ y) = Some (List.length x) ->
  Js.replace_all matcher repl (x ++ y) = repl ++ Js.replace_all matcher repl y.
Proof.
  intros Hx Hm. destruct x as [|c x]; [contradiction|].
  unfold Js.replace_all. cbn [app Js.replace_from].
  change (c :: x ++ y) with ((c :: x) ++ y). rewrite Hm. cbn [List.length].
  now rewrite replace_skip.
Qed.

(** Text in which no match starts is kept. *)
Lemma replace_pass (pre rest : jsstring) :
  (forall a b, pre = a ++ b -> b <> [] -> matcher (b ++ rest) = None) ->
  Js.replace_all matcher repl (pre ++ rest) = pre ++ Js.replace_all matcher repl rest.
Proof.
  unfold Js.replace_all. induction pre as [|c pre IH]; intros Hno; [reflexivity|].
  cbn [app Js.replace_from].
  change (c :: pre ++ rest) with ((c :: pre) ++ rest).
  rewrite (Hno [] (c :: pre)) by (reflexivity || discriminate).
  cbn [app]. f_equal. apply IH. intros a b E Hb.
  apply (Hno (c :: a) b); [now rewrite E | exact Hb].
Qed.

End Replace.

(** ** Occurrences *)

Lemma includes_false (s p : jsstring) :
  Js.includes s p = false ->
  forall a b, s = a ++ b -> Js.startsWith b p = false.
Proof.
  intros H a; revert s H; induction a as [|x a IH]; intros s H b E.
  - cbn in E. subst. destruct b; cbn in H; now apply orb_false_iff in H as [H _].
  - subst. cbn [app Js.includes] in H. apply orb_false_iff in H as [_ H].
    now apply (IH (a ++ b)).
Qed.

Lemma startsWith_prefix (s t p : jsstring) :
  (List.length p <= List.length s)%nat ->
  Js.startsWith (s ++ t) p = Js.startsWith s p.
Proof.
  revert s; induction p as [|y p IH]; intros s Hl; [reflexivity|].
  destruct s as [|x s]; [cbn in Hl; lia|].
  cbn. f_equal. apply IH. cbn in Hl. lia.
Qed.

(** No two-character pattern starts in [pre] when [pre] is followed by
    the character [c]. *)
Lemma no_start (pre tail p : jsstring) (c : Js.unit) :
  List.length p = 2%nat ->
  Js.includes (pre ++ [c]) p = false ->
  forall a b, pre = a ++ b -> b <> [] -> Js.startsWith (b ++ c :: tail) p = false.
Proof.
  intros Hp Hno a b E Hb.
  change (b ++ c :: tail) with (b ++ [c] ++ tail). rewrite app_assoc.
  rewrite startsWith_prefix.
  - apply (includes_false _ _ Hno a). now rewrite E, app_assoc.
  - rewrite length_app. destruct b; [contradiction|]. cbn. lia.
Qed.

Lemma includes_none (s p : jsstring) :
  p <> [] ->
  Js.includes s p = false ->
  forall a b, s = a ++ b -> b <> [] -> Js.startsWith (b ++ []) p = false.
Proof.
  intros _ Hno a b E _. rewrite app_nil_r. now apply (includes_false _ _ Hno a).
Qed.

(** ** The two comment passes *)

Lemma takeWhile_stop (p : Js.unit -> bool) (body rest : jsstring) :
  forallb p body = true ->
  (rest = [] \/ exists c t, rest = c :: t /\ p c = false) ->
  Js.takeWhile p (body ++ rest) = body.
Proof.
  intros Hb Hr. induction body as [|x body IH]; cbn in *.
  - destruct Hr as [-> | (c & t & -> & Hc)]; [reflexivity|]. cbn. now rewrite Hc.
  - apply andb_true_iff in Hb as [Hx Hb]. rewrite Hx. f_equal. now apply IH.
Qed.

Lemma line_span (pre body rest : jsstring) :
  Js.includes (pre ++ js "-") (js "--") = false ->
  forallb not_LF body = true ->
  (rest = [] \/ exists t, rest = LF :: t) ->
  strip_line_comments (pre ++ js "--" ++ body ++ rest) =
  pre ++ strip_line_comments rest.
Proof.
  intros Hpre Hbody Hrest. unfold strip_line_comments.
  rewrite replace_pass.
  - f_equal. rewrite app_assoc.
    rewrite (replace_match re_line_comment [] (js "--" ++ body) rest);
      [reflexivity | discriminate |].
    unfold re_line_comment. rewrite <- app_assoc.
    change (Js.startsWith (js "--" ++ body ++ rest) (js "--")) with true.
    change (skipn 2 (js "--" ++ body ++ rest)) with (body ++ rest).
    rewrite takeWhile_stop; [reflexivity | exact Hbody |].
    destruct Hrest as [-> | (t & ->)]; [now left|]. right. now exists LF, t.
  - intros a b E Hb. unfold re_line_comment.
    change (js "--" ++ body ++ rest) with (45 :: (45 :: body ++ rest)).
    now rewrite (no_start pre _ (js "--") 45 eq_refl Hpre a b E Hb).
Qed.

Lemma line_free (s : jsstring) :
  Js.includes s (js "--") = false -> strip_line_comments s = s.
Proof.
  intros Hno. unfold strip_line_comments.
  rewrite <- (app_nil_r s) at 1. rewrite replace_pass; [apply app_nil_r|].
  intros a b E Hb. unfold re_line_comment.
  now rewrite (includes_none s (js "--") ltac:(discriminate) Hno a b E Hb).
Qed.

Lemma find_close_span (body rest : jsstring) :
  find_close body = None ->
  find_close (body ++ js "*/" ++ rest) = Some (List.length body).
Proof.
  induction body as [|c b IH]; intros H; [reflexivity|].
  cbn [find_close] in H.
  destruct (Js.startsWith (c :: b) (js "*/")) eqn:S; [discriminate|].
  destruct (find_close b) eqn:F; [discriminate|].
  cbn [app find_close].
  replace (Js.startsWith (c :: b ++ js "*/" ++ rest) (js "*/")) with false.
  - now rewrite IH.
  - destruct b as [|d b]; [|exact (eq_sym S)].
    cbn. now rewrite andb_false_r.
Qed.

Lemma block_span (pre body rest : jsstring) :
  Js.includes (pre ++ js "/") (js "/*") = false ->
  find_close body = None ->
  strip_block_comments (pre ++ js "/*" ++ body ++ js "*/" ++ rest) =
  pre ++ strip_block_comments rest.
Proof.
  intros Hpre Hbody. unfold strip_block_comments.
  rewrite replace_pass.
  - f_equal.
    replace (js "/*" ++ body ++ js "*/" ++ rest)
      with ((js "/*" ++ body ++ js "*/") ++ rest) by now rewrite <- !app_assoc.
    rewrite replace_match; [reflexivity | discriminate |].
    unfold re_block_comment. rewrite <- !app_assoc.
    change (Js.startsWith (js "/*" ++ body ++ js "*/" ++ rest) (js "/*")) with true.
    change (skipn 2 (js "/*" ++ body ++ js "*/" ++ rest)) with (body ++ js "*/" ++ rest).
    rewrite find_close_span by assumption. cbn [option_map]. f_equal.
    cbn [List.length app Js.lit]. rewrite length_app. cbn. lia.
  - intros a b E Hb. unfold re_block_comment.
    change (js "/*" ++ body ++ js "*/" ++ rest)
      with (47 :: (42 :: body ++ js "*/" ++ rest)).
    now rewrite (no_start pre _ (js "/*") 47 eq_refl Hpre a b E Hb).
Qed.

Lemma block_free (s : jsstring) :
  Js.includes s (js "/*") = false -> strip_block_comments s = s.
Proof.
  intros Hno. unfold strip_block_comments.
  rewrite <- (app_nil_r s) at 1. rewrite replace_pass; [apply app_nil_r|].
  intros a b E Hb. unfold re_block_comment.
  now rewrite (includes_none s (js "/*") ltac:(discriminate) Hno a b E Hb).
Qed.

(** ** Whitespace *)

Lemma join_cons (sep p : jsstring) (rest : list jsstring) :
  rest <> [] -> join sep (p :: rest) = p ++ sep ++ join sep rest.
Proof. destruct rest; [contradiction | reflexivity]. Qed.

Lemma join_extend (sep seg : jsstring) (c : Js.unit) (rest : list jsstring) :
  join sep ((c :: seg) :: rest) = c :: join sep (seg :: rest).
Proof. destruct rest; reflexivity. Qed.

Lemma re_ws_run_word (c : Js.unit) (t : jsstring) :
  Js.is_ws c = false -> re_ws_run (c :: t) = None.
Proof. intros W. unfold re_ws_run. cbn [Js.takeWhile]. now rewrite W. Qed.

Lemma re_ws_run_blank (c : Js.unit) (t : jsstring) :
  Js.is_ws c = true ->
  re_ws_run (c :: t) = Some (S (List.length (Js.takeWhile Js.is_ws t))).
Proof. intros W. unfold re_ws_run. cbn [Js.takeWhile]. now rewrite W. Qed.

(** Replacing the whitespace runs by a blank is joining the segments
    between the runs with blanks.  While a run is being skipped the
    counter holds what is left of it. *)
Lemma ws_runs_join (s : jsstring) :
  Js.replace_from re_ws_run [SPACE] O s = join [SPACE] (Js.split_ws_from false s) /\
  Js.replace_from re_ws_run [SPACE] (List.length (Js.takeWhile Js.is_ws s)) s =
    join [SPACE] (Js.split_ws_from true s).
Proof.
  induction s as [|c t [IH0 IH1]]; [split; reflexivity|].
  assert (Hword : Js.is_ws c = false ->
                  Js.replace_from re_ws_run [SPACE] O (c :: t) =
                  join [SPACE] (Js.split_ws_from false (c :: t))).
  { intros W. cbn [Js.replace_from Js.split_ws_from].
    rewrite re_ws_run_word, W by assumption.
    pose proof (ClassifierFacts.split_ws_from_nonempty false t) as Hne.
    destruct (Js.split_ws_from false t) as [|seg rest]; [contradiction|].
    now rewrite join_extend, IH0. }
  destruct (Js.is_ws c) eqn:W.
  - split.
    + cbn [Js.replace_from Js.split_ws_from].
      rewrite re_ws_run_blank, W by assumption.
      rewrite join_cons by apply ClassifierFacts.split_ws_from_nonempty.
      now rewrite IH1.
    + cbn [Js.takeWhile Js.split_ws_from]. rewrite W. cbn [List.length Js.replace_from].
      exact IH1.
  - split; [now apply Hword|].
    cbn [Js.takeWhile]. rewrite W. cbn [List.length].
    rewrite Hword by reflexivity. cbn [Js.split_ws_from]. now rewrite W.
Qed.

Lemma normalizeWhitespace_join (s : jsstring) :
  normalizeWhitespace s = join [SPACE] (Js.split_ws (Js.trim s)).
Proof. unfold normalizeWhitespace, Js.replace_all, Js.split_ws. apply ws_runs_join. Qed.

(** ** Trimming *)

Lemma takeWhile_dropWhile (p : Js.unit -> bool) (s : jsstring) :
  s = Js.takeWhile p s ++ Js.dropWhile p s /\
  forallb p (Js.takeWhile p s) = true /\
  (forall c, hd_error (Js.dropWhile p s) = Some c -> p c = false).
Proof.
  induction s as [|x s (E & A & H)]; cbn.
  - repeat split. discriminate.
  - destruct (p x) eqn:P; cbn.
    + rewrite P. repeat split; [now rewrite <- E | exact A | exact H].
    + split; [reflexivity|]. split; [reflexivity|].
      intros c Hc. cbn in Hc. injection Hc as <-. exact P.
Qed.

Lemma forallb_rev (p : Js.unit -> bool) (s : jsstring) :
  forallb p (rev s) = forallb p s.
Proof.
  induction s as [|x s IH]; [reflexivity|].
  cbn. rewrite forallb_app, IH. cbn. rewrite andb_true_r. apply andb_comm.
Qed.

Lemma trimEnd_parts (s : jsstring) :
  exists trail,
    s = Js.trimEnd s ++ trail /\ forallb Js.is_ws trail = true /\
    (forall c, last_unit (Js.trimEnd s) = Some c -> Js.is_ws c = false).
Proof.
  destruct (takeWhile_dropWhile Js.is_ws (rev s)) as (E & A & H).
  exists (rev (Js.takeWhile Js.is_ws (rev s))). split; [|split].
  - unfold Js.trimEnd. rewrite <- rev_app_distr, <- E. now rewrite rev_involutive.
  - now rewrite forallb_rev.
  - unfold last_unit, Js.trimEnd. rewrite rev_involutive. exact H.
Qed.

Lemma trim_parts (s : jsstring) :
  exists lead trail,
    s = lead ++ Js.trim s ++ trail /\
    forallb Js.is_ws lead = true /\ forallb Js.is_ws trail = true /\
    (forall c, hd_error (Js.trim s) = Some c -> Js.is_ws c = false) /\
    (forall c, last_unit (Js.trim s) = Some c -> Js.is_ws c = false).
Proof.
  destruct (takeWhile_dropWhile Js.is_ws s) as (E & A & H).
  destruct (trimEnd_parts (Js.trimStart s)) as (trail & E' & A' & H').
  exists (Js.takeWhile Js.is_ws s), trail. unfold Js.trim.
  split; [|split; [|split; [|split]]]; try assumption.
  - unfold Js.trimStart in *. now rewrite <- E'.
  - intros c Hc. apply H. unfold Js.trimStart in *. rewrite E'.
    destruct (Js.trimEnd (Js.dropWhile Js.is_ws s)); [now cbn in Hc | exact Hc].
Qed.

(** ** Splitting *)

Lemma split_nonempty (sep : Js.unit) (s : jsstring) : Js.split sep s <> [].
Proof.
  induction s as [|c t IH]; cbn; [discriminate|].
  destruct (c =? sep); [discriminate|]. destruct (Js.split sep t); discriminate.
Qed.

(** The segments, put together with the separator, are the text; and no
    segment holds a separator: the text is divided at every separator. *)
Lemma split_join (sep : Js.unit) (s : jsstring) :
  join [sep] (Js.split sep s) = s /\
  forall seg, In seg (Js.split sep s) -> ~ In sep seg.
Proof.
  induction s as [|c t [IHj IHn]]; cbn [Js.split].
  - split; [reflexivity|]. intros seg [<-|[]] [].
  - pose proof (split_nonempty sep t) as Hne.
    destruct (N.eqb_spec c sep) as [->|Hc]; cbv iota.
    + split.
      * rewrite join_cons by assumption. cbn. now rewrite IHj.
      * intros seg [<-|Hin]; [intros [] | now apply IHn].
    + destruct (Js.split sep t) as [|seg0 rest]; [contradiction|]. cbv iota. split.
      * rewrite (join_extend [sep] seg0 c rest). f_equal. exact IHj.
      * intros seg [<-|Hin].
        -- intros [E|Hin]; [now apply Hc | apply (IHn seg0); [now left | exact Hin]].
        -- apply IHn. now right.
Qed.

Lemma trim_keeps_out (c : Js.unit) (s : jsstring) : ~ In c s -> ~ In c (Js.trim s).
Proof.
  intros Hs Hin. destruct (trim_parts s) as (lead & trail & E & _).
  apply Hs. rewrite E. apply in_or_app. right. apply in_or_app. now left.
Qed.

End NormalizerFacts.

(** C8, as the code has it.  Normalization and splitting look at
    characters only; no statement below mentions a quote.  Normalization
    first removes the line comments of the raw text: every [--] up to the
    end of its line, wherever it starts, and nothing else.  It then removes
    the block comments of the text that remains: every [/*] with the
    shortest text up to a [*/] behind it, and nothing else.  It then trims
    the text and replaces every run of whitespace by one blank.  Splitting
    divides the normalized text at every terminator, trims the segments,
    drops the empty ones and keeps the order. *)
Theorem normalize_and_split (raw : jsstring) :
  normalizeQuery raw =
    normalizeWhitespace (strip_block_comments (strip_line_comments raw)) /\
  (forall pre body rest,
     Js.includes (pre ++ js "-") (js "--") = false ->
     forallb not_LF body = true ->
     (rest = [] \/ exists t, rest = LF :: t) ->
     strip_line_comments (pre ++ js "--" ++ body ++ rest) =
       pre ++ strip_line_comments rest) /\
  (forall s, Js.includes s (js "--") = false -> strip_line_comments s = s) /\
  (forall pre body rest,
     Js.includes (pre ++ js "/") (js "/*") = false ->
     find_close body = None ->
     strip_block_comments (pre ++ js "/*" ++ body ++ js "*/" ++ rest) =
       pre ++ strip_block_comments rest) /\
  (forall s, Js.includes s (js "/*") = false -> strip_block_comments s = s) /\
  (forall s,
     normalizeWhitespace s = join [SPACE] (Js.split_ws (Js.trim s)) /\
     exists lead trail,
       s = lead ++ Js.trim s ++ trail /\
       forallb Js.is_ws lead = true /\ forallb Js.is_ws trail = true /\
       (forall c, hd_error (Js.trim s) = Some c -> Js.is_ws c = false) /\
       (forall c, last_unit (Js.trim s) = Some c -> Js.is_ws c = false)) /\
  let normalized := normalizeQuery raw in
  splitStatements normalized =
    filter nonempty (map Js.trim (Js.split SEMICOLON normalized)) /\
  join [SEMICOLON] (Js.split SEMICOLON normalized) = normalized /\
  (forall seg, In seg (Js.split SEMICOLON normalized) -> ~ In SEMICOLON seg) /\
  (forall u, In u (splitStatements normalized) -> u <> [] /\ ~ In SEMICOLON u).
Proof.
  split; [reflexivity|].
  split; [exact NormalizerFacts.line_span|].
  split; [exact NormalizerFacts.line_free|].
  split; [exact NormalizerFacts.block_span|].
  split; [exact NormalizerFacts.block_free|].
  split.
  { intros s. split; [apply NormalizerFacts.normalizeWhitespace_join|].
    apply NormalizerFacts.trim_parts. }
  intros normalized.
  destruct (NormalizerFacts.split_join SEMICOLON normalized) as [Hjoin Hfree].
  split; [reflexivity|]. split; [exact Hjoin|]. split; [exact Hfree|].
  intros u Hu. unfold splitStatements in Hu.
  apply filter_In in Hu as [Hin Hne]. apply in_map_iff in Hin as (seg & <- & Hseg).
  split.
  - intros E. rewrite E in Hne. discriminate.
  - apply NormalizerFacts.trim_keeps_out. now apply Hfree.
Qed.

(** C8, as the specification has it, fails for a block comment whose body
    holds two dashes: the line pass runs first and removes the text from
    the dashes on, the closing delimiter with it, so the opening delimiter
    and the text before the dashes stay. *)
Lemma normalize_and_split_counterexample :
  let raw := Samples.dashed_comment_query in
  raw = js "/*" ++ js " a -- b " ++ js "*/" ++ js " SELECT 1" /\
  find_close (js " a -- b ") = None /\
  removeComments raw = js "/* a " /\
  normalizeQuery raw = js "/* a" /\
  normalizeQuery raw <> normalizeQuery (js " SELECT 1").
Proof.
  cbv zeta. repeat split; try (vm_compute; reflexivity). vm_compute. discriminate.
Qed.

(** The laws at work on a request with one comment of either kind. *)
Example comment_laws_instance :
  strip_line_comments (js "SELECT 1 " ++ js "--" ++ js " c" ++ (nl ++ js "FROM t")) =
    js "SELECT 1 " ++ (nl ++ js "FROM t") /\
  strip_block_comments (js "SELECT " ++ js "/*" ++ js " c " ++ js "*/" ++ js " 1") =
    js "SELECT  1".
Proof.
  split.
  - rewrite NormalizerFacts.line_span.
    + now rewrite NormalizerFacts.line_free.
    + reflexivity.
    + reflexivity.
    + right. now exists (js "FROM t").
  - rewrite NormalizerFacts.block_span.
    + now rewrite NormalizerFacts.block_free.
    + reflexivity.
    + reflexivity.
Qed.

(** Comment and terminator characters inside string literals are treated
    like any others. *)
Example quoted_text_is_not_protected :
  normalizeQuery Samples.quoted_query = js "SELECT 'a" /\
  splitStatements (js "SELECT ';' FROM t") = [js "SELECT '"; js "' FROM t"].
Proof. split; vm_compute; reflexivity. Qed.

(* ================================================================== *)
(** * Further properties: verdicts and their texts *)
(* ================================================================== *)

Lemma isAllowed_kinds (k : QueryType) (m : OperationMode) :
  isAllowed k m = true <->
  In k ALWAYS_ALLOWED \/ (m = WRITE_ENABLED /\ In k WRITE_MODE_ALLOWED).
Proof.
  destruct k, m; cbn; split; intros H; try reflexivity; try discriminate;
    try (left; tauto); try (right; split; [reflexivity | tauto]);
    exfalso; intuition discriminate.
Qed.

Lemma isAllowed_mode_monotone (k : QueryType) :
  isAllowed k READ_ONLY = true -> isAllowed k WRITE_ENABLED = true.
Proof. destruct k; cbn; intros H; (reflexivity || discriminate). Qed.

(** X1.  Write mode only adds: a request that read-only mode lets pass
    passes in write mode as well, with the same verdict. *)
Theorem parseQuery_mode_monotone (toUpperCase : jsstring -> jsstring) (raw : jsstring) :
  allowed (parseQuery toUpperCase raw READ_ONLY) = true ->
  parseQuery toUpperCase raw WRITE_ENABLED = parseQuery toUpperCase raw READ_ONLY.
Proof.
  intros H. apply parseQuery_allowed_iff in H as [Hne Hall].
  assert (Hall' : forall u, In u (splitStatements (normalizeQuery raw)) ->
                            authorized toUpperCase WRITE_ENABLED u = true).
  { intros u Hu. apply isAllowed_mode_monotone. now apply Hall. }
  unfold parseQuery. rewrite !parseQuery_nonempty by assumption.
  now rewrite !check_all_authorized by assumption.
Qed.

Lemma parseQuery_mode_monotone_witness :
  parseQuery Js.toUpperCase_ascii Samples.commented_query WRITE_ENABLED =
  parseQuery Js.toUpperCase_ascii Samples.commented_query READ_ONLY.
Proof.
  apply (parseQuery_mode_monotone Js.toUpperCase_ascii Samples.commented_query).
  vm_compute. reflexivity.
Defined.

(** X2.  What reaches the pool: when the executor hands a query to the
    pool, the request has statement units, and the classifier has put
    every one of them in the always-allowed list or, in write mode only,
    in the write-mode list; none is of a never-allowed or unlisted kind. *)
Theorem executor_sends_only_authorized (toUpperCase : jsstring -> jsstring)
    (this : QueryExecutor) (executionTime : N) (raw : jsstring) :
  queries (snd (executor_executeQuery toUpperCase this executionTime raw)) <> [] ->
  splitStatements (normalizeQuery raw) <> [] /\
  forall u, In u (splitStatements (normalizeQuery raw)) ->
    let k := detectQueryType toUpperCase u in
    (In k ALWAYS_ALLOWED \/
     (operationMode this = WRITE_ENABLED /\ In k WRITE_MODE_ALLOWED)) /\
    ~ In k NEVER_ALLOWED /\ ~ In k UNLISTED.
Proof.
  intros Hsent.
  destruct (allowed (parseQuery toUpperCase raw (operationMode this))) eqn:A.
  - apply parseQuery_allowed_iff in A as [Hne Hall]. split; [exact Hne|].
    intros u Hu k. specialize (Hall u Hu). unfold authorized in Hall. fold k in Hall.
    split; [now apply isAllowed_kinds|].
    destruct k, (operationMode this); cbn in Hall; try discriminate;
      split; cbn; intuition discriminate.
  - destruct (executor_blocked toUpperCase this executionTime raw A) as [Hq _].
    now contradiction Hsent.
Qed.

Lemma executor_sends_only_authorized_witness :
  splitStatements (normalizeQuery Samples.commented_query) <> [].
Proof.
  apply (executor_sends_only_authorized Js.toUpperCase_ascii
           (Samples.executor_on Samples.ok_pool READ_ONLY) 7 Samples.commented_query).
  vm_compute. discriminate.
Defined.

(** X3.  The texts of a rejection: for every kind and mode that
    [isAllowed] rejects, the reason is not empty and names the kind; the
    suggestion is empty exactly for the kinds that are in none of the
    three lists (USE, CREATE, ALTER, SET, UNKNOWN); and the advice to set
    MYSQL_ALLOW_WRITE=true is given, in the reason and in the suggestion
    alike, exactly for a write-mode kind in read-only mode. *)
Theorem rejection_texts (k : QueryType) (m : OperationMode) :
  isAllowed k m = false ->
  explainBlocked k m <> [] /\
  Js.includes (explainBlocked k m) (QueryType_value k) = true /\
  (suggestFix k m = [] <-> In k UNLISTED) /\
  (Js.includes (suggestFix k m) (js "MYSQL_ALLOW_WRITE=true") = true <->
   m = READ_ONLY /\ In k WRITE_MODE_ALLOWED) /\
  (Js.includes (explainBlocked k m) (js "MYSQL_ALLOW_WRITE=true") = true <->
   m = READ_ONLY /\ In k WRITE_MODE_ALLOWED).
Proof.
  intros H.
  destruct k, m; try discriminate H; clear H;
    (split; [vm_compute; discriminate|]);
    (split; [vm_compute; reflexivity|]);
    repeat split; vm_compute; intros;
      try reflexivity; try tauto; intuition (discriminate || congruence).
Qed.

Lemma rejection_texts_witness :
  suggestFix CREATE WRITE_ENABLED = [] <-> In CREATE UNLISTED.
Proof.
  apply (rejection_texts CREATE WRITE_ENABLED). reflexivity.
Defined.

(* ================================================================== *)
(** * Further properties: the error path *)
(* ================================================================== *)

Module ErrorFacts.

Lemma startsWith_app_l (m s p : jsstring) :
  Js.startsWith m p = true -> Js.startsWith (m ++ s) p = true.
Proof.
  intros H. rewrite (JsFacts.startsWith_split _ _ H), <- app_assoc.
  apply JsFacts.startsWith_app.
Qed.

Lemma includes_app_l (m s p : jsstring) :
  Js.includes m p = true -> Js.includes (m ++ s) p = true.
Proof.
  induction m as [|x m IH]; cbn [Js.includes app]; intros H.
  - rewrite orb_false_r in H. destruct p; [|discriminate H].
    destruct s; reflexivity.
  - apply orb_true_iff in H as [H | H]; apply orb_true_iff.
    + left. now apply (startsWith_app_l (x :: m)).
    + right. now apply IH.
Qed.

Lemma includes_app_r (m s p : jsstring) :
  Js.includes s p = true -> Js.includes (m ++ s) p = true.
Proof.
  intros H. induction m as [|x m IH]; [exact H|].
  cbn [app Js.includes]. rewrite IH. apply orb_true_r.
Qed.

(** A pattern does not start at a character it does not hold. *)
Lemma startsWith_foreign (c : Js.unit) (s p : jsstring) :
  p <> [] -> ~ In c p -> Js.startsWith (c :: s) p = false.
Proof.
  intros Hp Hc. destruct p as [|y p]; [contradiction|]. cbn.
  destruct (N.eqb_spec c y) as [->|_]; [|reflexivity].
  exfalso. apply Hc. now left.
Qed.

(** A pattern does not reach over a character it does not hold. *)
Lemma startsWith_cut (a s p : jsstring) (c : Js.unit) :
  p <> [] -> ~ In c p ->
  Js.startsWith (a ++ c :: s) p = Js.startsWith a p.
Proof.
  revert p; induction a as [|x a IH]; intros p Hp Hc.
  - cbn [app]. rewrite startsWith_foreign by assumption. now destruct p.
  - destruct p as [|y p]; [contradiction|]. cbn.
    destruct p as [|z p]; [now destruct (a ++ c :: s), a|].
    rewrite IH; [reflexivity | discriminate |].
    intros H. apply Hc. now right.
Qed.

Lemma includes_cut (m s p : jsstring) (c : Js.unit) :
  p <> [] -> ~ In c p ->
  Js.includes (m ++ c :: s) p = Js.includes m p || Js.includes (c :: s) p.
Proof.
  intros Hp Hc. induction m as [|x m IH].
  - cbn [app]. destruct p; [contradiction | reflexivity].
  - change ((x :: m) ++ c :: s) with (x :: (m ++ c :: s)).
    cbn [Js.includes]. rewrite IH.
    change (x :: m ++ c :: s) with ((x :: m) ++ c :: s).
    rewrite startsWith_cut by assumption. now rewrite orb_assoc.
Qed.

Lemma includes_foreign (d s p : jsstring) :
  p <> [] -> (forall c, In c d -> ~ In c p) ->
  Js.includes (d ++ s) p = Js.includes s p.
Proof.
  intros Hp Hd. induction d as [|x d IH]; [reflexivity|].
  cbn [app Js.includes]. rewrite startsWith_foreign; [|exact Hp | apply Hd; now left].
  apply IH. intros c Hc. apply Hd. now right.
Qed.

(** ** Decimal numerals are made of digits *)

Lemma digits_rev_digits (fuel : nat) (n : N) (c : Js.unit) :
  In c (Js.digits_rev fuel n) -> 48 <= c <= 57.
Proof.
  revert n; induction fuel as [|f IH]; intros n; cbn [Js.digits_rev]; [intros []|].
  intros [<- | H].
  - pose proof (N.mod_upper_bound n 10 ltac:(discriminate)) as B.
    revert B. generalize (n mod 10). intros r B. lia.
  - destruct (n / 10 =? 0); [destruct H | now apply (IH (n / 10))].
Qed.

Lemma of_N_digits (n : N) (c : Js.unit) : In c (Js.of_N n) -> 48 <= c <= 57.
Proof.
  unfold Js.of_N. intros H. apply in_rev in H. now apply digits_rev_digits in H.
Qed.

Lemma of_N_nonempty (n : N) : Js.of_N n <> [].
Proof.
  unfold Js.of_N. cbn [Js.digits_rev]. intros H.
  apply (f_equal (@List.length _)) in H. rewrite length_rev in H. discriminate H.
Qed.

(** ** The text the executor appends *)

(** A pattern of letters occurs in a message with the execution time
    appended exactly when it occurs in the message, provided it does not
    occur in the fixed parts of the appended text. *)
Lemma suffix_adds_nothing (m p : jsstring) (t : N) :
  p <> [] ->
  (forall c, In c p -> 65 <= c) ->
  Js.includes (js " (execution time: ") p = false ->
  Js.includes (js "ms)") p = false ->
  Js.includes (m ++ execution_time_suffix t) p = Js.includes m p.
Proof.
  intros Hp Hletters Hhead Htail. unfold execution_time_suffix.
  assert (Hforeign : forall c, c < 65 -> ~ In c p).
  { intros c Hc Hin. apply Hletters in Hin. lia. }
  change (js " (execution time: " ++ Js.of_N t ++ js "ms)")
    with (32 :: (js "(execution time: " ++ Js.of_N t ++ js "ms)")).
  rewrite includes_cut; [|exact Hp | apply Hforeign; lia].
  change (32 :: (js "(execution time: " ++ Js.of_N t ++ js "ms)"))
    with (js " (execution time: " ++ Js.of_N t ++ js "ms)").
  pose proof (of_N_nonempty t) as Hne. pose proof (of_N_digits t) as Hdig.
  destruct (Js.of_N t) as [|d ds]; [contradiction|].
  change ((d :: ds) ++ js "ms)") with (d :: (ds ++ js "ms)")).
  rewrite includes_cut;
    [|exact Hp | apply Hforeign; specialize (Hdig d ltac:(now left)); lia].
  rewrite Hhead.
  change (d :: (ds ++ js "ms)")) with ((d :: ds) ++ js "ms)").
  rewrite includes_foreign; [now rewrite Htail, orb_false_r | exact Hp |].
  intros c Hc. apply Hforeign. specialize (Hdig c Hc). lia.
Qed.

Lemma isTimeoutError_message (e : ErrorObject) :
  isTimeoutError (ErrorInstance e) =
  Js.includes (message e) (js "timeout") || Js.includes (message e) (js "ETIMEDOUT").
Proof. reflexivity. Qed.

Lemma timeout_patterns (m : jsstring) (t : N) :
  Js.includes (m ++ execution_time_suffix t) (js "timeout") =
    Js.includes m (js "timeout") /\
  Js.includes (m ++ execution_time_suffix t) (js "ETIMEDOUT") =
    Js.includes m (js "ETIMEDOUT").
Proof.
  split; apply suffix_adds_nothing; try discriminate; try reflexivity;
    intros c Hc; cbn in Hc; decompose [or] Hc; subst; try lia; contradiction.
Qed.

Lemma with_execution_time_message (e : ErrorObject) (t : N) :
  with_execution_time (ErrorInstance e) t =
  ErrorInstance {| name := name e;
                   message := message e ++ execution_time_suffix t;
                   code := code e; sqlMessage := sqlMessage e; sql := sql e;
                   zodIssues := zodIssues e |}.
Proof. reflexivity. Qed.

Lemma isTimeoutError_kept (error : Thrown) (t : N) :
  isTimeoutError (with_execution_time error t) = isTimeoutError error.
Proof.
  destruct error as [e | c m q text]; [|reflexivity].
  rewrite with_execution_time_message, !isTimeoutError_message. cbn [message].
  destruct (timeout_patterns (message e) t) as [-> ->]. reflexivity.
Qed.

End ErrorFacts.

Lemma handleMySQLError_fields (error error' : Thrown) (c : jsstring) :
  thrown_code error = Some c -> thrown_code error' = Some c ->
  thrown_sqlMessage error' = thrown_sqlMessage error ->
  thrown_sql error' = thrown_sql error ->
  handleMySQLError error' = handleMySQLError error.
Proof.
  intros Hc Hc' Hm Hq. unfold handleMySQLError, sqlMessage_or_else.
  now rewrite Hc, Hc', Hm, Hq.
Qed.

(** X4.  The execution time that the executor appends to the message of a
    failure never changes what kind of failure [handleQueryError] sees: a
    timeout stays a timeout and nothing else becomes one, whatever the
    number; the text of the response is the same as without it for a
    timeout, a validation error and a database error with a code, and
    only the text for an uncategorized error shows the longer message. *)
Theorem execution_time_keeps_category (error : Thrown) (executionTime queryTimeout : N) :
  let error' := with_execution_time error executionTime in
  isTimeoutError error' = isTimeoutError error /\
  thrown_code error' = thrown_code error /\
  thrown_zodIssues error' = thrown_zodIssues error /\
  (isTimeoutError error = true \/ thrown_zodIssues error <> None \/
   isMySQLError error = true ->
   handleQueryError error' queryTimeout = handleQueryError error queryTimeout) /\
  (isTimeoutError error = false -> thrown_zodIssues error = None ->
   isMySQLError error = false ->
   handleQueryError error' queryTimeout = handleUnknownError error').
Proof.
  intros error'.
  assert (Ht : isTimeoutError error' = isTimeoutError error)
    by apply ErrorFacts.isTimeoutError_kept.
  assert (Hc : thrown_code error' = thrown_code error) by now destruct error.
  assert (Hz : thrown_zodIssues error' = thrown_zodIssues error) by now destruct error.
  assert (Hm : thrown_sqlMessage error' = thrown_sqlMessage error) by now destruct error.
  assert (Hq : thrown_sql error' = thrown_sql error) by now destruct error.
  split; [exact Ht|]. split; [exact Hc|]. split; [exact Hz|]. split.
  - intros H. unfold handleQueryError, isMySQLError in *. rewrite Ht, Hz, Hc.
    destruct (isTimeoutError error); [reflexivity|].
    destruct (thrown_zodIssues error); [reflexivity|].
    destruct (thrown_code error) as [c|] eqn:E.
    + apply handleMySQLError_fields with (c := c); congruence.
    + exfalso. destruct H as [H | [H | H]]; [discriminate H | now apply H | discriminate H].
  - intros Ht0 Hz0 Hm0. unfold handleQueryError, isMySQLError in *.
    rewrite Ht, Hz, Hc, Ht0, Hz0.
    destruct (thrown_code error); [discriminate Hm0 | reflexivity].
Qed.

Section PipelineFacts.

Variable toUpperCase : jsstring -> jsstring.
Variable JSON_stringify : JsonOutput -> jsstring.

(** The executor on a request that passes: the outcome of the client,
    formatted or marked with the execution time. *)
Lemma executor_allowed (this : QueryExecutor) (t : N) (raw : jsstring) :
  allowed (parseQuery toUpperCase raw (operationMode this)) = true ->
  executor_executeQuery toUpperCase this t raw =
    let lines := snd (parseQuery_logged toUpperCase raw (operationMode this)) in
    match client_executeQuery (mysqlClient this) raw None with
    | (Returned (rows, fields), sent) =>
        (Returned (formatResult rows fields t), {| audit := lines; queries := sent |})
    | (Threw error, sent) =>
        (Threw (with_execution_time error t), {| audit := lines; queries := sent |})
    end.
Proof.
  unfold parseQuery, executor_executeQuery.
  destruct (parseQuery_logged toUpperCase raw (operationMode this)) as [v lines].
  cbn [fst snd]. intros ->. reflexivity.
Qed.

(** The executor on a request that does not pass. *)
Lemma executor_rejected (this : QueryExecutor) (t : N) (raw : jsstring) :
  allowed (parseQuery toUpperCase raw (operationMode this)) = false ->
  exists r s,
    reason (parseQuery toUpperCase raw (operationMode this)) = Some r /\
    suggestion (parseQuery toUpperCase raw (operationMode this)) = Some s /\
    Js.includes (js "Query blocked: " ++ r ++ nl ++ nl ++ s) (js "timeout") = false /\
    Js.includes (js "Query blocked: " ++ r ++ nl ++ nl ++ s) (js "ETIMEDOUT") = false /\
    executor_executeQuery toUpperCase this t raw =
      (Threw (new_Error (js "Query blocked: " ++ r ++ nl ++ nl ++ s)),
       {| audit := snd (parseQuery_logged toUpperCase raw (operationMode this));
          queries := [] |}).
Proof.
  intros A.
  assert (Hshape :
    parseQuery toUpperCase raw (operationMode this) =
      {| queryType := UNKNOWN; allowed := false;
         reason := Some (js "Empty or invalid query");
         suggestion := Some (js "Please provide a valid SQL query.") |} \/
    exists k, parseQuery toUpperCase raw (operationMode this) =
                blocked k (operationMode this)).
  { unfold parseQuery in *.
    destruct (splitStatements (normalizeQuery raw)) as [|s0 rest] eqn:E.
    - left. now rewrite parseQuery_empty.
    - right. rewrite parseQuery_nonempty in * by (rewrite E; discriminate).
      rewrite E in *.
      destruct (first_rejected_or_none toUpperCase (operationMode this) (s0 :: rest))
        as [Hall | (before & u & after & Es & Hb & Hu)].
      + rewrite check_all_authorized in A by assumption. discriminate A.
      + rewrite Es, check_first_rejected by assumption. now eexists. }
  assert (Hrun : forall r s,
    reason (parseQuery toUpperCase raw (operationMode this)) = Some r ->
    suggestion (parseQuery toUpperCase raw (operationMode this)) = Some s ->
    executor_executeQuery toUpperCase this t raw =
      (Threw (new_Error (js "Query blocked: " ++ r ++ nl ++ nl ++ s)),
       {| audit := snd (parseQuery_logged toUpperCase raw (operationMode this));
          queries := [] |})).
  { intros r s Hr Hs. unfold parseQuery, executor_executeQuery in *.
    destruct (parseQuery_logged toUpperCase raw (operationMode this)) as [v lines].
    cbn [fst snd] in *. rewrite A, Hr, Hs. cbn [negb or_else].
    now destruct s. }
  destruct Hshape as [E | [k E]].
  - exists (js "Empty or invalid query"), (js "Please provide a valid SQL query.").
    rewrite E. repeat split; [vm_compute; reflexivity .. |].
    apply Hrun; now rewrite E.
  - exists (explainBlocked k (operationMode this)), (suggestFix k (operationMode this)).
    rewrite E. split; [reflexivity|]. split; [reflexivity|].
    split; [|split].
    + destruct k, (operationMode this); vm_compute; reflexivity.
    + destruct k, (operationMode this); vm_compute; reflexivity.
    + apply Hrun; now rewrite E.
Qed.

End PipelineFacts.

(** X5.  A request that is not allowed never reaches the pool, and the
    response of the tool is the text for an uncategorized error, with the
    name [Error] and the message [Query blocked:] followed by the reason
    and the suggestion of the verdict; no reason or suggestion is taken
    for a timeout. *)
Theorem rejected_request_response (toUpperCase : jsstring -> jsstring)
    (JSON_stringify : JsonOutput -> jsstring) (input : QueryInput)
    (executor : QueryExecutor) (timeout executionTime : N) :
  allowed (parseQuery toUpperCase (query input) (operationMode executor)) = false ->
  exists r s,
    reason (parseQuery toUpperCase (query input) (operationMode executor)) = Some r /\
    suggestion (parseQuery toUpperCase (query input) (operationMode executor)) = Some s /\
    fst (handleQueryTool toUpperCase JSON_stringify input executor timeout executionTime) =
      js "**Error: Error**" ++ nl ++ nl ++
      js "Query blocked: " ++ r ++ nl ++ nl ++ s ++ nl /\
    queries (snd (handleQueryTool toUpperCase JSON_stringify input executor timeout
                    executionTime)) = [].
Proof.
  intros A.
  destruct (executor_rejected toUpperCase executor executionTime (query input) A)
    as (r & s & Hr & Hs & Ht & He & Hrun).
  exists r, s. split; [exact Hr|]. split; [exact Hs|].
  unfold handleQueryTool. rewrite Hrun. cbn [fst snd queries].
  split; [|reflexivity].
  unfold handleQueryError, new_Error, isTimeoutError. cbn [message].
  rewrite Ht, He. cbn [orb thrown_zodIssues zodIssues isMySQLError thrown_code code].
  unfold handleUnknownError. cbn [name message].
  now rewrite <- !app_assoc.
Qed.

Lemma rejected_request_response_witness :
  queries (snd (handleQueryTool Js.toUpperCase_ascii Samples.no_json Samples.update_input
                  (Samples.executor_on Samples.ok_pool READ_ONLY) 30000 7)) = [].
Proof.
  destruct (rejected_request_response Js.toUpperCase_ascii Samples.no_json
              Samples.update_input (Samples.executor_on Samples.ok_pool READ_ONLY)
              30000 7) as (r & s & _ & _ & _ & H).
  - vm_compute. reflexivity.
  - exact H.
Defined.

(** X6.  Whatever the database reports with the word [timeout] in its
    message is answered as a query timeout: for a request that passes,
    when the pool fails with an error whose message contains [timeout],
    the response of the tool is the text of the query deadline, whatever
    the code or the other fields of the error. *)
Theorem timeout_word_wins (toUpperCase : jsstring -> jsstring)
    (JSON_stringify : JsonOutput -> jsstring) (input : QueryInput)
    (executor : QueryExecutor) (p : Pool) (e : ErrorObject)
    (timeout executionTime : N) :
  allowed (parseQuery toUpperCase (query input) (operationMode executor)) = true ->
  pool (mysqlClient executor) = Some p ->
  p {| opt_sql := query input;
       opt_timeout := config_queryTimeout (mysqlClient executor) |} =
    Threw (ErrorInstance e) ->
  Js.includes (message e) (js "timeout") = true ->
  fst (handleQueryTool toUpperCase JSON_stringify input executor timeout executionTime) =
    handleTimeoutError timeout.
Proof.
  intros A Hp Hfail Hword.
  unfold handleQueryTool. rewrite executor_allowed by assumption.
  unfold client_executeQuery. rewrite Hp, Hfail, Hword. cbv zeta. cbn [fst].
  unfold handleQueryError. rewrite ErrorFacts.isTimeoutError_kept.
  unfold new_Error, isTimeoutError. cbn [message].
  now rewrite (ErrorFacts.includes_app_l (js "Query execution timeout exceeded (")).
Qed.

Lemma timeout_word_wins_witness :
  fst (handleQueryTool Js.toUpperCase_ascii Samples.no_json Samples.update_input
         (Samples.executor_on Samples.locked_pool WRITE_ENABLED) 30000 7) =
    handleTimeoutError 30000.
Proof.
  eapply (timeout_word_wins Js.toUpperCase_ascii Samples.no_json Samples.update_input
            (Samples.executor_on Samples.locked_pool WRITE_ENABLED) Samples.locked_pool).
  - vm_compute. reflexivity.
  - reflexivity.
  - reflexivity.
  - vm_compute. reflexivity.
Defined.

(** X7.  A client whose pool has not been created (or has been closed)
    sends nothing: a request that passes is answered with the text for an
    uncategorized error that tells to call [initialize()], with the
    execution time behind it. *)
Theorem uninitialized_client_response (toUpperCase : jsstring -> jsstring)
    (JSON_stringify : JsonOutput -> jsstring) (input : QueryInput)
    (executor : QueryExecutor) (timeout executionTime : N) :
  allowed (parseQuery toUpperCase (query input) (operationMode executor)) = true ->
  pool (mysqlClient executor) = None ->
  fst (handleQueryTool toUpperCase JSON_stringify input executor timeout executionTime) =
    js "**Error: Error**" ++ nl ++ nl ++
    js "MySQL client not initialized. Call initialize() first." ++
    execution_time_suffix executionTime ++ nl /\
  queries (snd (handleQueryTool toUpperCase JSON_stringify input executor timeout
                  executionTime)) = [].
Proof.
  intros A Hp.
  unfold handleQueryTool. rewrite executor_allowed by assumption.
  unfold client_executeQuery. rewrite Hp. cbv zeta. cbn [fst snd queries].
  split; [|reflexivity].
  unfold handleQueryError. rewrite ErrorFacts.isTimeoutError_kept.
  unfold new_Error at 1. unfold isTimeoutError. cbn [message].
  replace (Js.includes (js "MySQL client not initialized. Call initialize() first.")
             (js "timeout")) with false by (vm_compute; reflexivity).
  replace (Js.includes (js "MySQL client not initialized. Call initialize() first.")
             (js "ETIMEDOUT")) with false by (vm_compute; reflexivity).
  cbn [orb]. unfold new_Error. rewrite ErrorFacts.with_execution_time_message.
  cbn [thrown_zodIssues zodIssues isMySQLError thrown_code code handleUnknownError
       name message].
  now rewrite <- !app_assoc.
Qed.

Lemma uninitialized_client_response_witness :
  queries (snd (handleQueryTool Js.toUpperCase_ascii Samples.no_json Samples.select_input
                  {| mysqlClient := {| pool := None; config_queryTimeout := 30000 |};
                     operationMode := READ_ONLY |} 30000 7)) = [].
Proof.
  apply (uninitialized_client_response Js.toUpperCase_ascii Samples.no_json
           Samples.select_input
           {| mysqlClient := {| pool := None; config_queryTimeout := 30000 |};
              operationMode := READ_ONLY |} 30000 7).
  - vm_compute. reflexivity.
  - reflexivity.
Defined.

Lemma handleQueryError_uncategorized (error : Thrown) (queryTimeout : N) :
  isTimeoutError error = false -> thrown_zodIssues error = None ->
  isMySQLError error = false ->
  handleQueryError error queryTimeout = handleUnknownError error.
Proof. intros Ht Hz Hm. unfold handleQueryError. now rewrite Ht, Hz, Hm. Qed.

(** X8.  The character limit is not applied on the error path: when the
    pool fails with an error that is neither a timeout, nor a validation
    error, nor an error with a code, the response holds the whole message
    of the error, with its name before and the execution time behind it,
    so it is longer than the message, however long that is. *)
Theorem uncategorized_error_response (toUpperCase : jsstring -> jsstring)
    (JSON_stringify : JsonOutput -> jsstring) (input : QueryInput)
    (executor : QueryExecutor) (p : Pool) (e : ErrorObject)
    (timeout executionTime : N) :
  allowed (parseQuery toUpperCase (query input) (operationMode executor)) = true ->
  pool (mysqlClient executor) = Some p ->
  p {| opt_sql := query input;
       opt_timeout := config_queryTimeout (mysqlClient executor) |} =
    Threw (ErrorInstance e) ->
  isTimeoutError (ErrorInstance e) = false ->
  code e = None -> zodIssues e = None ->
  let response :=
    fst (handleQueryTool toUpperCase JSON_stringify input executor timeout executionTime) in
  response =
    js "**Error: " ++ name e ++ js "**" ++ nl ++ nl ++
    message e ++ execution_time_suffix executionTime ++ nl /\
  Js.len (message e) < Js.len response.
Proof.
  intros A Hp Hfail Ht Hc Hz response.
  assert (E : response =
              js "**Error: " ++ name e ++ js "**" ++ nl ++ nl ++
              message e ++ execution_time_suffix executionTime ++ nl).
  { unfold response, handleQueryTool. rewrite executor_allowed by assumption.
    unfold client_executeQuery. rewrite Hp, Hfail. cbv zeta.
    pose proof Ht as Ht'. rewrite ErrorFacts.isTimeoutError_message in Ht'.
    apply orb_false_iff in Ht' as [Hword _]. rewrite Hword. cbn [fst].
    rewrite handleQueryError_uncategorized.
    - rewrite ErrorFacts.with_execution_time_message. cbn [handleUnknownError name message].
      now rewrite <- !app_assoc.
    - now rewrite ErrorFacts.isTimeoutError_kept.
    - exact Hz.
    - unfold isMySQLError. cbn. now rewrite Hc. }
  split; [exact E|].
  rewrite E, !JsFacts.len_app. change (Js.len nl) with 1. lia.
Qed.

Lemma uncategorized_error_response_witness :
  fst (handleQueryTool Js.toUpperCase_ascii Samples.no_json Samples.select_input
         (Samples.executor_on Samples.refusing_pool READ_ONLY) 30000 7) =
    js "**Error: Error**" ++ nl ++ nl ++ js "read ECONNABORTED" ++
    execution_time_suffix 7 ++ nl.
Proof.
  eapply (uncategorized_error_response Js.toUpperCase_ascii Samples.no_json
            Samples.select_input (Samples.executor_on Samples.refusing_pool READ_ONLY)
            Samples.refusing_pool Samples.aborted_error 30000 7).
  - vm_compute. reflexivity.
  - reflexivity.
  - reflexivity.
  - vm_compute. reflexivity.
  - reflexivity.
  - reflexivity.
Defined.

(* ================================================================== *)
(** * Further properties: the character limit *)
(* ================================================================== *)

Lemma applyCharacterLimit_fits (text : jsstring) (includeWarning : bool) :
  Js.len text <= CHARACTER_LIMIT -> applyCharacterLimit text includeWarning = text.
Proof.
  intros H. unfold applyCharacterLimit.
  destruct (N.leb_spec (Js.len text) CHARACTER_LIMIT); [reflexivity | lia].
Qed.

Lemma applyCharacterLimit_plain (text : jsstring) :
  applyCharacterLimit text false = Js.substring0 text CHARACTER_LIMIT.
Proof.
  unfold applyCharacterLimit.
  destruct (N.leb_spec (Js.len text) CHARACTER_LIMIT) as [H|H]; [|reflexivity].
  unfold Js.substring0. rewrite firstn_all2; [reflexivity|].
  unfold Js.len in H. lia.
Qed.

Lemma applyCharacterLimit_le (text : jsstring) (includeWarning : bool) :
  (includeWarning = true -> Js.len text <= Js.MAX_LENGTH) ->
  Js.len (applyCharacterLimit text includeWarning) <= CHARACTER_LIMIT.
Proof.
  intros Hmax. destruct includeWarning.
  - destruct (N.le_gt_cases (Js.len text) CHARACTER_LIMIT) as [H|H].
    + now rewrite applyCharacterLimit_fits.
    + destruct (TruncatorFacts.truncated_shape text (Hmax eq_refl) H) as [-> Hw].
      rewrite JsFacts.len_app, JsFacts.len_substring0. lia.
  - rewrite applyCharacterLimit_plain, JsFacts.len_substring0. lia.
Qed.

(** X9.  Without the warning, [applyCharacterLimit] is the cut at
    CHARACTER_LIMIT: the result is the first 25000 code units of the
    response (all of it when it is shorter), with no notice. *)
Theorem applyCharacterLimit_without_warning (response : jsstring) :
  applyCharacterLimit response false = Js.substring0 response CHARACTER_LIMIT /\
  Js.len (applyCharacterLimit response false) = N.min (Js.len response) CHARACTER_LIMIT /\
  exists dropped, response = applyCharacterLimit response false ++ dropped.
Proof.
  rewrite applyCharacterLimit_plain. split; [reflexivity|]. split.
  - rewrite JsFacts.len_substring0. lia.
  - exists (skipn (N.to_nat CHARACTER_LIMIT) response).
    unfold Js.substring0. now rewrite firstn_skipn.
Qed.

(** X10.  Applying the limit twice is applying it once: the result of
    [applyCharacterLimit] is within the limit, so a second application,
    with or without the warning, returns it unchanged and never adds a
    second notice. *)
Theorem applyCharacterLimit_idempotent (response : jsstring) (first second : bool) :
  (first = true -> Js.len response <= Js.MAX_LENGTH) ->
  applyCharacterLimit (applyCharacterLimit response first) second =
  applyCharacterLimit response first.
Proof.
  intros Hmax. apply applyCharacterLimit_fits. now apply applyCharacterLimit_le.
Qed.

Lemma applyCharacterLimit_idempotent_witness :
  applyCharacterLimit (applyCharacterLimit (repeat 97 (N.to_nat 25001)) true) true =
  applyCharacterLimit (repeat 97 (N.to_nat 25001)) true.
Proof.
  apply (applyCharacterLimit_idempotent (repeat 97 (N.to_nat 25001)) true true).
  intros _. vm_compute. discriminate.
Defined.

(** X11.  The response to a request that is executed is within the limit:
    when the executor returns a result whose rendered text the language
    can hold, the text the tool answers has at most CHARACTER_LIMIT code
    units, in either format. *)
Theorem executed_response_bounded (toUpperCase : jsstring -> jsstring)
    (JSON_stringify : JsonOutput -> jsstring) (input : QueryInput)
    (executor : QueryExecutor) (timeout executionTime : N)
    (result : QueryResult) (effects : Effects) :
  executor_executeQuery toUpperCase executor executionTime (query input) =
    (Returned result, effects) ->
  Js.len (formatted_text JSON_stringify input result) <= Js.MAX_LENGTH ->
  Js.len (fst (handleQueryTool toUpperCase JSON_stringify input executor timeout
                 executionTime)) <= CHARACTER_LIMIT.
Proof.
  intros Hrun Hmax. unfold handleQueryTool. rewrite Hrun. cbn [fst].
  now apply applyCharacterLimit_le.
Qed.

Lemma executed_response_bounded_witness :
  Js.len (fst (handleQueryTool Js.toUpperCase_ascii Samples.no_json Samples.update_input
                 (Samples.executor_on Samples.ok_pool WRITE_ENABLED) 30000 7))
    <= CHARACTER_LIMIT.
Proof.
  apply (executed_response_bounded Js.toUpperCase_ascii Samples.no_json
           Samples.update_input (Samples.executor_on Samples.ok_pool WRITE_ENABLED)
           30000 7 _ _ eq_refl).
  vm_compute. discriminate.
Defined.

(* ================================================================== *)
(** * Further properties: the texts of the error translator *)
(* ================================================================== *)

Lemma ends_app (a w : jsstring) (c : Js.unit) :
  last_unit w = Some c -> last_unit (a ++ w) = Some c.
Proof.
  intros H. rewrite ClassifierFacts.last_unit_app; [exact H|].
  intros E. rewrite E in H. discriminate H.
Qed.

Ltac ends_with_nl :=
  repeat match goal with
         | |- last_unit (_ ++ _) = _ => apply ends_app
         end;
  reflexivity.

Lemma handleMySQLError_shape (error : Thrown) (c : jsstring) :
  thrown_code error = Some c ->
  Js.startsWith (handleMySQLError error) (js "**") = true /\
  last_unit (handleMySQLError error) = Some LF.
Proof.
  intros Hc. unfold handleMySQLError. rewrite Hc.
  repeat match goal with
         | |- context [if ?b then _ else _] => destruct b
         end;
    (split; [reflexivity | unfold LOCK_WAIT_TIMEOUT_TEXT; ends_with_nl]).
Qed.

(** X12.  Every text of [handleQueryError] is a block of its own: it
    opens with a heading in bold (two asterisks) and ends with a line
    break, for every thrown value and every timeout; in particular it is
    never empty. *)
Theorem error_text_shape (error : Thrown) (queryTimeout : N) :
  Js.startsWith (handleQueryError error queryTimeout) (js "**") = true /\
  last_unit (handleQueryError error queryTimeout) = Some LF /\
  handleQueryError error queryTimeout <> [].
Proof.
  assert (H : Js.startsWith (handleQueryError error queryTimeout) (js "**") = true /\
              last_unit (handleQueryError error queryTimeout) = Some LF).
  { unfold handleQueryError.
    destruct (isTimeoutError error).
    - split; [reflexivity | unfold handleTimeoutError; ends_with_nl].
    - destruct (thrown_zodIssues error) as [issues|].
      + split; [reflexivity | unfold handleValidationError; ends_with_nl].
      + unfold isMySQLError. destruct (thrown_code error) as [c|] eqn:Hc.
        * now apply handleMySQLError_shape with (c := c).
        * destruct error as [e | c m q text];
            (split; [reflexivity | unfold handleUnknownError; ends_with_nl]). }
  destruct H as [Hs He]. repeat split; try assumption.
  intros E. rewrite E in He. discriminate He.
Qed.

(** X13.  What the texts for database errors do not show.  For a code
    that [handleMySQLError] has a case for, the text never shows the SQL
    of the error: it is the same whatever the [sql] field.  For the codes
    of a lock-wait timeout, too many connections, a refused, lost or
    reset connection the text is fixed: it shows nothing of the error at
    all, neither [sqlMessage] nor [sql] nor the message. *)
Theorem database_error_texts (error error' : Thrown) (k : string) :
  thrown_code error = Some (js k) -> thrown_code error' = Some (js k) ->
  (In k KNOWN_CODES -> thrown_sqlMessage error' = thrown_sqlMessage error ->
   handleMySQLError error' = handleMySQLError error) /\
  (In k FIXED_TEXT_CODES -> handleMySQLError error' = handleMySQLError error).
Proof.
  intros Hc Hc'. unfold handleMySQLError, sqlMessage_or_else. rewrite Hc, Hc'. split.
  - intros Hk Hm. rewrite Hm. unfold KNOWN_CODES in Hk. cbn [In] in Hk.
    decompose [or] Hk; try contradiction; subst k; reflexivity.
  - intros Hk. unfold FIXED_TEXT_CODES in Hk. cbn [In] in Hk.
    decompose [or] Hk; try contradiction; subst k; reflexivity.
Qed.

Lemma database_error_texts_witness :
  handleMySQLError
    (OtherValue (Some (js "ECONNREFUSED")) (Some (js "connect ECONNREFUSED 10.0.0.5:3306"))
       None (js "Error")) =
  handleMySQLError Samples.refused_error.
Proof.
  apply (database_error_texts Samples.refused_error
           (OtherValue (Some (js "ECONNREFUSED"))
              (Some (js "connect ECONNREFUSED 10.0.0.5:3306")) None (js "Error"))
           "ECONNREFUSED"); try reflexivity.
  cbn. tauto.
Defined.

(* ================================================================== *)
(** * Further properties: the unified result *)
(* ================================================================== *)

(** X14.  The shape of the result [formatResult] builds, whatever the
    driver answers.  It has columns exactly when it has rows, and then it
    has one column per field (with the name of the field), one row per
    row object, every row with one cell per column, and the row count is
    the number of rows.  When it has an affected-row count it has no
    columns, the row count is that count, and the insert id and the
    changed-row count are present. *)
Theorem formatResult_shape (answer : NativeRows) (fields : list FieldPacket)
    (elapsed : N) :
  let result := formatResult answer fields elapsed in
  executionTime result = elapsed /\
  (columns result = None <-> rows result = None) /\
  (forall cols data,
     columns result = Some cols -> rows result = Some data ->
     map col_name cols = map field_name fields /\
     rowCount result = N.of_nat (List.length data) /\
     (forall items own, answer = RowArray items own ->
                        List.length data = List.length items) /\
     (forall row, In row data -> List.length row = List.length cols)) /\
  (forall n,
     affectedRows result = Some n ->
     columns result = None /\ rowCount result = n /\
     insertId result <> None /\ changedRows result <> None).
Proof.
  intros result. unfold result, formatResult.
  destruct answer as [items [ok|] | ok |]; cbn.
  - repeat split; intros; try discriminate; congruence.
  - split; [reflexivity|]. split; [split; discriminate|]. split.
    + intros cols data [= <-] [= <-]. unfold columns_of, rowArray_of.
      rewrite map_map, !length_map. repeat split.
      * intros items' own [= <- _]. reflexivity.
      * intros row Hin. apply in_map_iff in Hin as (r & <- & _).
        now rewrite !length_map.
    + intros n H. discriminate H.
  - repeat split; intros; try discriminate; congruence.
  - repeat split; intros; try discriminate; congruence.
Qed.

(* ================================================================== *)
(** * Further properties: the audit trail *)
(* ================================================================== *)

Module AuditFacts.

Lemma truncateForLog_len (s : jsstring) (maxLength : N) :
  Js.len (truncateForLog s maxLength) <= maxLength + 3.
Proof.
  unfold truncateForLog. destruct (N.leb_spec (Js.len s) maxLength) as [H|H]; [lia|].
  rewrite JsFacts.len_app, JsFacts.len_substring0. change (Js.len (js "...")) with 3. lia.
Qed.

Lemma truncateForLog_chars (s : jsstring) (maxLength : N) (c : Js.unit) :
  In c (truncateForLog s maxLength) -> In c s \/ c = 46.
Proof.
  unfold truncateForLog. destruct (Js.len s <=? maxLength); [now left|].
  intros H. apply in_app_or in H as [H | H].
  - left. unfold Js.substring0 in H.
    rewrite <- (firstn_skipn (N.to_nat maxLength) s). apply in_or_app. now left.
  - right. cbn in H. intuition.
Qed.

Lemma logQuery_parts (q : jsstring) (m : OperationMode) (a : bool) (t : QueryType) :
  logQuery q m a (Some t) = audit_header m a t ++ truncateForLog q LOG_QUERY_TRUNCATE_LENGTH.
Proof. unfold logQuery, audit_header. now rewrite <- !app_assoc. Qed.

Lemma audit_header_facts (m : OperationMode) (a : bool) (t : QueryType) :
  Js.len (audit_header m a t) <= 52 /\ blank_only (audit_header m a t) = true.
Proof. destruct m, a, t; split; vm_compute; (reflexivity || discriminate). Qed.

Lemma blank_only_app (a b : jsstring) :
  blank_only (a ++ b) = blank_only a && blank_only b.
Proof. apply forallb_app. Qed.

Lemma blank_only_In (s : jsstring) :
  blank_only s = true <-> forall c, In c s -> Js.is_ws c = true -> c = SPACE.
Proof.
  unfold blank_only. rewrite forallb_forall. split; intros H c Hc.
  - intros W. specialize (H c Hc). rewrite W in H. cbn in H. now apply N.eqb_eq.
  - destruct (Js.is_ws c) eqn:W; [|reflexivity]. cbn. apply N.eqb_eq. now apply H.
Qed.

(** ** Characters of joined and split texts *)

Lemma in_join (sep : jsstring) (parts : list jsstring) (c : Js.unit) :
  In c (join sep parts) -> In c sep \/ exists p, In p parts /\ In c p.
Proof.
  induction parts as [|p rest IH]; [intros []|].
  destruct rest as [|q rest].
  - intros H. right. exists p. split; [now left | exact H].
  - rewrite NormalizerFacts.join_cons by discriminate. intros H.
    apply in_app_or in H as [H | H]; [right; exists p; split; [now left | exact H]|].
    apply in_app_or in H as [H | H]; [now left|].
    destruct (IH H) as [Hs | (p' & Hp & Hc)]; [now left|].
    right. exists p'. split; [now right | exact Hc].
Qed.

Lemma join_in (sep : jsstring) (parts : list jsstring) (p : jsstring) (c : Js.unit) :
  In p parts -> In c p -> In c (join sep parts).
Proof.
  induction parts as [|p0 rest IH]; [intros []|].
  intros Hp Hc. destruct rest as [|q rest].
  - destruct Hp as [<- | []]. exact Hc.
  - rewrite NormalizerFacts.join_cons by discriminate.
    destruct Hp as [<- | Hp]; apply in_or_app; [now left|].
    right. apply in_or_app. right. now apply IH.
Qed.

Lemma split_ws_segments (b : bool) (s seg : jsstring) (c : Js.unit) :
  In seg (Js.split_ws_from b s) -> In c seg -> Js.is_ws c = false.
Proof.
  revert b seg; induction s as [|x t IH]; intros b seg; cbn [Js.split_ws_from].
  - intros [<- | []] [].
  - destruct (Js.is_ws x) eqn:W.
    + destruct b; [apply IH|]. intros [<- | H]; [intros [] | now apply (IH true)].
    + pose proof (ClassifierFacts.split_ws_from_nonempty false t) as Hne.
      destruct (Js.split_ws_from false t) as [|seg0 rest] eqn:E; [contradiction|].
      intros [<- | H].
      * intros [<- | Hc]; [exact W|].
        apply (IH false seg0); [rewrite E; now left | exact Hc].
      * apply (IH false seg). rewrite E. now right.
Qed.

Lemma normalizeWhitespace_blank_only (s : jsstring) :
  blank_only (normalizeWhitespace s) = true.
Proof.
  apply blank_only_In. intros c Hc W.
  rewrite NormalizerFacts.normalizeWhitespace_join in Hc.
  apply in_join in Hc as [[<- | []] | (seg & Hseg & Hin)]; [reflexivity|].
  unfold Js.split_ws in Hseg. rewrite (split_ws_segments _ _ _ _ Hseg Hin) in W.
  discriminate W.
Qed.

Lemma trim_In (s : jsstring) (c : Js.unit) : In c (Js.trim s) -> In c s.
Proof.
  intros H. destruct (NormalizerFacts.trim_parts s) as (lead & trail & E & _).
  rewrite E. apply in_or_app. right. apply in_or_app. now left.
Qed.

Lemma unit_chars (text u : jsstring) (c : Js.unit) :
  In u (splitStatements text) -> In c u -> In c text.
Proof.
  intros Hu Hc. unfold splitStatements in Hu.
  apply filter_In in Hu as [Hu _]. apply in_map_iff in Hu as (seg & <- & Hseg).
  apply trim_In in Hc.
  destruct (NormalizerFacts.split_join SEMICOLON text) as [<- _].
  now apply join_in with (p := seg).
Qed.

Section Lines.

Variable toUpperCase : jsstring -> jsstring.

Lemma lines_origin (mode : OperationMode) (statements : list jsstring) (line : jsstring) :
  In line (snd (check_statements toUpperCase mode statements)) ->
  exists u, In u statements /\ line = audit_line toUpperCase mode u.
Proof.
  induction statements as [|s rest IH]; [intros []|].
  cbn [check_statements]. unfold audit_line at 1.
  destruct (isAllowed (detectQueryType toUpperCase s) mode) eqn:A; cbn [negb].
  - destruct (check_statements toUpperCase mode rest) as [r lines]. cbn [snd] in *.
    intros [<- | H].
    + exists s. split; [now left|]. unfold audit_line. now rewrite A.
    + destruct (IH H) as (u & Hu & ->). exists u. split; [now right | reflexivity].
  - cbn [snd]. intros [<- | []]. exists s. split; [now left|].
    unfold audit_line. now rewrite A.
Qed.

Lemma parse_lines_origin (raw : jsstring) (mode : OperationMode) (line : jsstring) :
  In line (snd (parseQuery_logged toUpperCase raw mode)) ->
  exists u, In u (splitStatements (normalizeQuery raw)) /\
            line = audit_line toUpperCase mode u.
Proof.
  unfold parseQuery_logged.
  destruct (splitStatements (normalizeQuery raw)) as [|s rest] eqn:E; [intros []|].
  cbn [List.length N.of_nat N.eqb].
  change (N.pos (Pos.of_succ_nat (List.length rest)) =? 0) with false. cbv iota.
  intros H. apply lines_origin.
  destruct (check_statements toUpperCase mode (s :: rest)) as [[v|] lines]; exact H.
Qed.

End Lines.

End AuditFacts.

(** X15.  Every line that [parseQuery] has written to the error stream
    stays on one line and is short, whatever line breaks, tabs or length
    the request has.  The message handed to [logInfo] has at most 255 code
    units; the line written for it is the tag [[INFO]], the timestamp, a
    dash and the message, so it has at most 265 code units besides the
    timestamp (289 with the 24 characters of an ISO timestamp); and when
    the timestamp holds no whitespace but blanks, the only whitespace
    characters of the line are blanks and it holds no line break. *)
Theorem audit_lines_bounded (toUpperCase : jsstring -> jsstring)
    (raw : jsstring) (mode : OperationMode) (timestamp message : jsstring) :
  In message (snd (parseQuery_logged toUpperCase raw mode)) ->
  Js.len message <= 255 /\
  Js.len (logInfo timestamp message) = 10 + Js.len timestamp + Js.len message /\
  Js.len (logInfo timestamp message) <= Js.len timestamp + 265 /\
  (Js.len timestamp = 24 -> Js.len (logInfo timestamp message) <= 289) /\
  (blank_only timestamp = true ->
   blank_only (logInfo timestamp message) = true /\
   ~ In LF (logInfo timestamp message)).
Proof.
  intros H. apply AuditFacts.parse_lines_origin in H as (u & Hu & ->).
  unfold audit_line. rewrite AuditFacts.logQuery_parts.
  destruct (AuditFacts.audit_header_facts mode
              (isAllowed (detectQueryType toUpperCase u) mode)
              (detectQueryType toUpperCase u)) as [Hlen Hblank].
  set (message := audit_header mode (isAllowed (detectQueryType toUpperCase u) mode)
                    (detectQueryType toUpperCase u) ++
                  truncateForLog u LOG_QUERY_TRUNCATE_LENGTH).
  assert (Hb : blank_only message = true).
  { unfold message. rewrite AuditFacts.blank_only_app, Hblank. cbn [andb].
    apply AuditFacts.blank_only_In. intros c Hc W.
    apply AuditFacts.truncateForLog_chars in Hc as [Hc | ->]; [|discriminate W].
    apply (AuditFacts.unit_chars _ _ _ Hu) in Hc.
    pose proof (AuditFacts.normalizeWhitespace_blank_only (removeComments raw)) as B.
    apply (proj1 (AuditFacts.blank_only_In _) B c Hc W). }
  assert (Hm : Js.len message <= 255).
  { unfold message. rewrite JsFacts.len_app.
    pose proof (AuditFacts.truncateForLog_len u LOG_QUERY_TRUNCATE_LENGTH).
    unfold LOG_QUERY_TRUNCATE_LENGTH in *. lia. }
  assert (Hl : Js.len (logInfo timestamp message) =
               10 + Js.len timestamp + Js.len message).
  { unfold logInfo. rewrite !JsFacts.len_app.
    change (Js.len (js "[INFO] ")) with 7. change (Js.len (js " - ")) with 3. lia. }
  split; [exact Hm|]. split; [exact Hl|]. split; [lia|]. split; [lia|].
  intros Ht.
  assert (Hline : blank_only (logInfo timestamp message) = true).
  { unfold logInfo. rewrite !AuditFacts.blank_only_app, Ht, Hb. reflexivity. }
  split; [exact Hline|].
  intros Hin. apply (proj1 (AuditFacts.blank_only_In _) Hline) in Hin; [discriminate Hin|].
  reflexivity.
Qed.

Lemma audit_lines_bounded_witness :
  Js.len (logInfo (js "2026-11-02T09:30:00.000Z")
            (js "Query EXECUTED [READ_ONLY] (SELECT): SELECT 1")) = 79 /\
  ~ In LF (logInfo (js "2026-11-02T09:30:00.000Z")
             (js "Query EXECUTED [READ_ONLY] (SELECT): SELECT 1")).
Proof.
  destruct (audit_lines_bounded Js.toUpperCase_ascii Samples.commented_query READ_ONLY
              (js "2026-11-02T09:30:00.000Z")
              (js "Query EXECUTED [READ_ONLY] (SELECT): SELECT 1"))
    as (_ & Hl & _ & _ & Hb).
  - vm_compute. now left.
  - split; [rewrite Hl; reflexivity | now apply Hb].
Defined.

(** X16.  The audit trail is written before the verdict of the batch is
    known.  When a unit of a batch is rejected behind units that are
    authorized, no query reaches the pool, and yet the trail holds, in
    order, a line that starts with [Query EXECUTED] for each unit before
    the rejected one and a line that starts with [Query BLOCKED] for the
    rejected unit; the units behind it leave no line. *)
Theorem audit_of_rejected_batch (toUpperCase : jsstring -> jsstring)
    (this : QueryExecutor) (executionTime : N) (raw : jsstring)
    (before after : list jsstring) (u : jsstring) :
  splitStatements (normalizeQuery raw) = before ++ u :: after ->
  (forall v, In v before -> authorized toUpperCase (operationMode this) v = true) ->
  authorized toUpperCase (operationMode this) u = false ->
  let effects := snd (executor_executeQuery toUpperCase this executionTime raw) in
  queries effects = [] /\
  audit effects =
    map (audit_line toUpperCase (operationMode this)) before ++
    [audit_line toUpperCase (operationMode this) u] /\
  (forall v, In v before ->
     Js.startsWith (audit_line toUpperCase (operationMode this) v)
       (js "Query EXECUTED [") = true) /\
  Js.startsWith (audit_line toUpperCase (operationMode this) u)
    (js "Query BLOCKED [") = true.
Proof.
  intros Es Hb Hu effects.
  assert (Hlog : parseQuery_logged toUpperCase raw (operationMode this) =
                 (blocked (detectQueryType toUpperCase u) (operationMode this),
                  map (audit_line toUpperCase (operationMode this)) (before ++ [u]))).
  { rewrite parseQuery_nonempty by (rewrite Es; now destruct before).
    now rewrite Es, check_first_rejected. }
  assert (A : allowed (parseQuery toUpperCase raw (operationMode this)) = false).
  { unfold parseQuery. now rewrite Hlog. }
  destruct (executor_rejected toUpperCase this executionTime raw A)
    as (r & s & _ & _ & _ & _ & Hrun).
  unfold effects. rewrite Hrun, Hlog. cbn [snd queries audit].
  split; [reflexivity|]. split; [now rewrite map_app|]. split.
  - intros v Hv. specialize (Hb v Hv). unfold authorized in Hb.
    unfold audit_line. rewrite Hb. reflexivity.
  - unfold authorized in Hu. unfold audit_line. rewrite Hu. reflexivity.
Qed.

Lemma audit_of_rejected_batch_witness :
  audit (snd (executor_executeQuery Js.toUpperCase_ascii
                (Samples.executor_on Samples.ok_pool WRITE_ENABLED) 7
                Samples.select_then_drop)) =
    [js "Query EXECUTED [WRITE_ENABLED] (SELECT): SELECT * FROM a.b";
     js "Query BLOCKED [WRITE_ENABLED] (DROP): DROP TABLE a.b"].
Proof.
  destruct (audit_of_rejected_batch Js.toUpperCase_ascii
              (Samples.executor_on Samples.ok_pool WRITE_ENABLED) 7
              Samples.select_then_drop [js "SELECT * FROM a.b"] []
              (js "DROP TABLE a.b")) as (_ & E & _).
  - vm_compute. reflexivity.
  - intros v [<- | []]. vm_compute. reflexivity.
  - vm_compute. reflexivity.
  - rewrite E. vm_compute. reflexivity.
Defined.

(* ================================================================== *)
(** * Further properties: the normal form *)
(* ================================================================== *)

Module TidyFacts.

Lemma last_is_ws_cons (d : bool) (c : Js.unit) (t : jsstring) :
  last_is_ws d (c :: t) = last_is_ws (Js.is_ws c) t.
Proof. reflexivity. Qed.

Lemma last_unit_cons (c : Js.unit) (t : jsstring) :
  last_unit (c :: t) = match t with [] => Some c | _ :: _ => last_unit t end.
Proof.
  destruct t as [|d t]; [reflexivity|].
  change (c :: d :: t) with ([c] ++ d :: t).
  now rewrite ClassifierFacts.last_unit_app.
Qed.

Lemma last_is_ws_last (d : bool) (s : jsstring) :
  last_is_ws d s = match last_unit s with Some c => Js.is_ws c | None => d end.
Proof.
  revert d; induction s as [|c t IH]; intros d; [reflexivity|].
  rewrite last_is_ws_cons, IH, last_unit_cons. destruct t as [|x t]; [reflexivity|].
  destruct (last_unit (x :: t)) eqn:E; [reflexivity|].
  rewrite last_unit_cons in E. exfalso. revert E. clear.
  revert x; induction t as [|y t IH]; intros x E; [discriminate E|].
  rewrite last_unit_cons in E. now apply (IH y).
Qed.

(** After the collapse of the runs the text is tidy from its first
    character on exactly when it does not end in whitespace. *)
Lemma collapse_tidy (s : jsstring) :
  tidy_from false (Js.replace_from re_ws_run [SPACE] O s) = negb (last_is_ws false s) /\
  tidy_from true
    (Js.replace_from re_ws_run [SPACE] (List.length (Js.takeWhile Js.is_ws s)) s) =
    negb (last_is_ws true s).
Proof.
  induction s as [|c t [IH0 IH1]]; [split; reflexivity|].
  rewrite !last_is_ws_cons. destruct (Js.is_ws c) eqn:W.
  - split.
    + cbn [Js.replace_from]. rewrite NormalizerFacts.re_ws_run_blank by assumption.
      cbn [app tidy_from]. exact IH1.
    + cbn [Js.takeWhile]. rewrite W. cbn [List.length Js.replace_from]. exact IH1.
  - assert (E : Js.replace_from re_ws_run [SPACE] O (c :: t) =
                c :: Js.replace_from re_ws_run [SPACE] O t).
    { cbn [Js.replace_from]. now rewrite NormalizerFacts.re_ws_run_word. }
    split.
    + rewrite E. cbn [tidy_from]. rewrite W. exact IH0.
    + cbn [Js.takeWhile]. rewrite W. cbn [List.length]. rewrite E.
      cbn [tidy_from]. rewrite W. exact IH0.
Qed.

Lemma normalizeWhitespace_tidy (s : jsstring) : tidy (normalizeWhitespace s) = true.
Proof.
  unfold normalizeWhitespace, Js.replace_all.
  destruct (NormalizerFacts.trim_parts s) as (lead & trail & _ & _ & _ & Hhd & Hlast).
  destruct (Js.trim s) as [|c t] eqn:E; [reflexivity|].
  assert (W : Js.is_ws c = false) by now apply Hhd.
  assert (L : last_is_ws false (c :: t) = false).
  { rewrite last_is_ws_last. destruct (last_unit (c :: t)) as [z|]; [|reflexivity].
    now apply Hlast. }
  cbn [Js.replace_from]. rewrite NormalizerFacts.re_ws_run_word by assumption.
  cbn [tidy tidy_from]. rewrite W.
  destruct (collapse_tidy t) as [-> _].
  rewrite last_is_ws_cons, W in L. now rewrite L.
Qed.

Lemma tidy_from_collapse (b : bool) (y : jsstring) :
  tidy_from b y = true -> Js.replace_from re_ws_run [SPACE] O y = y.
Proof.
  revert b; induction y as [|c t IH]; intros b H; [reflexivity|].
  cbn [tidy_from] in H. cbn [Js.replace_from]. destruct (Js.is_ws c) eqn:W.
  - apply andb_true_iff in H as [H Ht]. apply andb_true_iff in H as [Hc _].
    apply N.eqb_eq in Hc. subst c.
    rewrite NormalizerFacts.re_ws_run_blank by assumption.
    assert (Hrun : Js.takeWhile Js.is_ws t = []).
    { destruct t as [|d t']; [reflexivity|]. cbn [tidy_from] in Ht. cbn [Js.takeWhile].
      destruct (Js.is_ws d); [|reflexivity].
      rewrite andb_false_r in Ht. discriminate Ht. }
    rewrite Hrun. cbn [List.length app]. f_equal. now apply (IH true).
  - rewrite NormalizerFacts.re_ws_run_word by assumption. f_equal. now apply (IH false).
Qed.

Lemma tidy_from_last (b : bool) (y : jsstring) :
  tidy_from b y = true -> last_is_ws b y = false.
Proof.
  revert b; induction y as [|c t IH]; intros b H.
  - cbn in *. now destruct b.
  - rewrite last_is_ws_cons. cbn [tidy_from] in H. destruct (Js.is_ws c).
    + apply andb_true_iff in H as [_ Ht]. now apply IH.
    + now apply IH.
Qed.

Lemma dropWhile_stays (l : jsstring) (z : Js.unit) :
  hd_error l = Some z -> Js.is_ws z = false -> Js.dropWhile Js.is_ws l = l.
Proof. destruct l as [|x l]; [discriminate|]. intros [= ->] W. cbn. now rewrite W. Qed.

Lemma tidy_trim (y : jsstring) : tidy y = true -> Js.trim y = y.
Proof.
  destruct y as [|c t]; [reflexivity|]. intros H. cbn [tidy] in H.
  pose proof (tidy_from_last _ _ H) as L. rewrite last_is_ws_last in L.
  assert (W : Js.is_ws c = false).
  { cbn [tidy_from] in H. destruct (Js.is_ws c); [|reflexivity].
    rewrite andb_false_r in H. discriminate H. }
  unfold Js.trim, Js.trimStart, Js.trimEnd.
  rewrite (dropWhile_stays (c :: t) c eq_refl W).
  destruct (last_unit (c :: t)) as [z|] eqn:E.
  - unfold last_unit in E. rewrite (dropWhile_stays _ z E L). apply rev_involutive.
  - unfold last_unit in E. destruct (rev (c :: t)) eqn:R; [|discriminate E].
    apply (f_equal (@rev _)) in R. rewrite rev_involutive in R. discriminate R.
Qed.

Lemma tidy_normalizeWhitespace (y : jsstring) :
  tidy y = true -> normalizeWhitespace y = y.
Proof.
  intros H. unfold normalizeWhitespace, Js.replace_all. rewrite tidy_trim by assumption.
  destruct y as [|c t]; [reflexivity|]. now apply (tidy_from_collapse true).
Qed.

(** ** Texts that give no statement *)

Lemma dropWhile_all (p : Js.unit -> bool) (s : jsstring) :
  (forall c, In c s -> p c = true) -> Js.dropWhile p s = [].
Proof.
  induction s as [|x s IH]; intros H; [reflexivity|].
  cbn. rewrite (H x) by now left. apply IH. intros c Hc. apply H. now right.
Qed.

Lemma trim_empty (s : jsstring) :
  Js.trim s = [] <-> forall c, In c s -> Js.is_ws c = true.
Proof.
  split.
  - intros E c Hc.
    destruct (NormalizerFacts.trim_parts s) as (lead & trail & Es & Hl & Ht & _).
    rewrite E in Es. cbn in Es. rewrite Es in Hc.
    apply in_app_or in Hc as [Hc | Hc];
      [exact (proj1 (forallb_forall _ _) Hl c Hc) |
       exact (proj1 (forallb_forall _ _) Ht c Hc)].
  - intros H. unfold Js.trim, Js.trimStart. now rewrite dropWhile_all.
Qed.

Lemma filter_nil {A : Type} (f : A -> bool) (l : list A) :
  filter f l = [] <-> forall x, In x l -> f x = false.
Proof.
  induction l as [|a l IH]; cbn; [split; [intros _ x [] | reflexivity]|].
  destruct (f a) eqn:F; split.
  - discriminate.
  - intros H. rewrite (H a) in F by now left. discriminate F.
  - intros E x [<- | Hx]; [exact F | now apply IH].
  - intros H. apply IH. intros x Hx. apply H. now right.
Qed.

Lemma nonempty_false (s : jsstring) : nonempty s = false <-> s = [].
Proof. destruct s; cbn; split; intros H; (reflexivity || discriminate H). Qed.

End TidyFacts.

(** X17.  The normalized text is tidy, whatever the request: it neither
    starts nor ends with whitespace, and each of its whitespace characters
    is a single blank between two other characters; no line break, tab or
    run of blanks is left. *)
Theorem normalizeQuery_tidy (raw : jsstring) :
  tidy (normalizeQuery raw) = true /\
  blank_only (normalizeQuery raw) = true /\
  (forall c, hd_error (normalizeQuery raw) = Some c -> Js.is_ws c = false) /\
  (forall c, last_unit (normalizeQuery raw) = Some c -> Js.is_ws c = false) /\
  Js.includes (normalizeQuery raw) [SPACE; SPACE] = false.
Proof.
  unfold normalizeQuery.
  pose proof (TidyFacts.normalizeWhitespace_tidy (removeComments raw)) as T.
  pose proof (TidyFacts.tidy_trim _ T) as Etrim.
  destruct (NormalizerFacts.trim_parts (normalizeWhitespace (removeComments raw)))
    as (_ & _ & _ & _ & _ & Hhd & Hlast).
  rewrite Etrim in Hhd, Hlast.
  split; [exact T|]. split; [apply AuditFacts.normalizeWhitespace_blank_only|].
  split; [exact Hhd|]. split; [exact Hlast|].
  revert T. generalize (normalizeWhitespace (removeComments raw)). intros y T.
  assert (G : forall b s, tidy_from b s = true -> Js.includes s [SPACE; SPACE] = false).
  { clear. intros b s; revert b; induction s as [|c t IH]; intros b H; [reflexivity|].
    cbn [Js.includes]. cbn [tidy_from] in H. destruct (Js.is_ws c) eqn:W.
    - apply andb_true_iff in H as [_ Ht]. rewrite (IH true Ht), orb_false_r.
      destruct t as [|d t']; [cbn; now rewrite andb_false_r|].
      cbn [tidy_from] in Ht. cbn.
      destruct (N.eqb_spec d SPACE) as [->|_]; [|now rewrite andb_false_r].
      change (Js.is_ws SPACE) with true in Ht. rewrite andb_false_r in Ht.
      discriminate Ht.
    - rewrite (IH false H), orb_false_r. cbn.
      destruct (N.eqb_spec c SPACE) as [->|_]; [discriminate W | reflexivity]. }
  destruct y as [|c t]; [reflexivity|]. now apply (G true).
Qed.

(** X18.  A tidy text without comment openers is its own normal form:
    normalization returns it unchanged.  In particular normalizing the
    whitespace of a text twice is normalizing it once. *)
Theorem tidy_text_is_normal (text : jsstring) :
  tidy text = true ->
  (Js.includes text (js "--") = false -> Js.includes text (js "/*") = false ->
   normalizeQuery text = text) /\
  normalizeWhitespace text = text /\
  forall s, normalizeWhitespace (normalizeWhitespace s) = normalizeWhitespace s.
Proof.
  intros T. split; [|split].
  - intros Hline Hblock. unfold normalizeQuery, removeComments.
    fold (strip_line_comments text). rewrite NormalizerFacts.line_free by assumption.
    fold (strip_block_comments text). rewrite NormalizerFacts.block_free by assumption.
    now apply TidyFacts.tidy_normalizeWhitespace.
  - now apply TidyFacts.tidy_normalizeWhitespace.
  - intros s. apply TidyFacts.tidy_normalizeWhitespace, TidyFacts.normalizeWhitespace_tidy.
Qed.

Lemma tidy_text_is_normal_witness :
  normalizeWhitespace (js "SELECT * FROM a.b") = js "SELECT * FROM a.b".
Proof.
  apply (tidy_text_is_normal (js "SELECT * FROM a.b")). reflexivity.
Defined.

(** X19.  A text gives no statement unit exactly when it is made of
    terminators and whitespace only (the empty text included). *)
Theorem splitStatements_empty (text : jsstring) :
  splitStatements text = [] <->
  forallb (fun c => Js.is_ws c || (c =? SEMICOLON)) text = true.
Proof.
  unfold splitStatements. rewrite TidyFacts.filter_nil, forallb_forall.
  destruct (NormalizerFacts.split_join SEMICOLON text) as [Hjoin Hfree].
  split.
  - intros H c Hc. rewrite <- Hjoin in Hc.
    apply AuditFacts.in_join in Hc as [[<- | []] | (seg & Hseg & Hin)].
    + rewrite N.eqb_refl. apply orb_true_r.
    + assert (E : Js.trim seg = []).
      { apply TidyFacts.nonempty_false, H, in_map_iff. now exists seg. }
      rewrite (proj1 (TidyFacts.trim_empty seg) E c Hin). reflexivity.
  - intros H u Hu. apply in_map_iff in Hu as (seg & <- & Hseg).
    apply TidyFacts.nonempty_false, TidyFacts.trim_empty. intros c Hc.
    assert (Hin : In c text).
    { rewrite <- Hjoin. now apply AuditFacts.join_in with (p := seg). }
    specialize (H c Hin). apply orb_true_iff in H as [H | H]; [exact H|].
    apply N.eqb_eq in H. subst c. now contradiction (Hfree seg Hseg).
Qed.

(* ================================================================== *)
(** * Further properties: the Markdown table *)
(* ================================================================== *)

Module TableFacts.

Lemma single_line_app (a b : jsstring) :
  single_line (a ++ b) = single_line a && single_line b.
Proof. apply forallb_app. Qed.

Lemma single_line_free (s : jsstring) : single_line s = true -> ~ In LF s.
Proof.
  intros H Hin. apply (proj1 (forallb_forall _ _) H) in Hin.
  rewrite N.eqb_refl in Hin. discriminate Hin.
Qed.

Lemma single_line_of_N (n : N) : single_line (Js.of_N n) = true.
Proof.
  apply forallb_forall. intros c Hc. apply ErrorFacts.of_N_digits in Hc.
  destruct (N.eqb_spec c LF) as [->|_]; [|reflexivity]. unfold LF in Hc. lia.
Qed.

Lemma single_line_join (sep : jsstring) (parts : list jsstring) :
  single_line sep = true -> (forall p, In p parts -> single_line p = true) ->
  single_line (join sep parts) = true.
Proof.
  intros Hsep Hparts. apply forallb_forall. intros c Hc.
  apply AuditFacts.in_join in Hc as [Hc | (p & Hp & Hc)].
  - exact (proj1 (forallb_forall _ _) Hsep c Hc).
  - exact (proj1 (forallb_forall _ _) (Hparts p Hp) c Hc).
Qed.

Lemma single_line_table_line (cells : list jsstring) :
  (forall p, In p cells -> single_line p = true) -> single_line (table_line cells) = true.
Proof.
  intros H. unfold table_line. rewrite !single_line_app, single_line_join; auto.
Qed.

Lemma split_line (sep : Js.unit) (l rest : jsstring) :
  ~ In sep l -> Js.split sep (l ++ sep :: rest) = l :: Js.split sep rest.
Proof.
  induction l as [|c l IH]; intros H; cbn [app Js.split].
  - now rewrite N.eqb_refl.
  - destruct (N.eqb_spec c sep) as [->|_]; [exfalso; apply H; now left|].
    rewrite IH; [reflexivity|]. intros Hin. apply H. now right.
Qed.

Lemma table_row_line (cells : list jsstring) :
  table_row cells = table_line cells ++ [LF].
Proof. unfold table_row, table_line, nl. now rewrite <- !app_assoc. Qed.

Lemma split_rows (lines : list jsstring) (rest : jsstring) :
  (forall l, In l lines -> single_line l = true) ->
  Js.split LF (List.concat (map (fun l => l ++ [LF]) lines) ++ rest) =
  lines ++ Js.split LF rest.
Proof.
  induction lines as [|l lines IH]; intros H; [reflexivity|].
  cbn [map List.concat app]. rewrite <- !app_assoc. cbn [app].
  rewrite split_line by (apply single_line_free, H; now left).
  rewrite IH; [reflexivity|]. intros l' Hl'. apply H. now right.
Qed.

End TableFacts.

(** X20.  The Markdown text of a result set reads back line by line.
    When the driver answers with at least one row and one field, and no
    column name and no shown cell holds a line break, the lines of the
    text are: the header with the column names, the separator with one
    [---] per column, one line per row in the order of the answer with
    one cell per field, two empty lines, and the line that reports the
    number of rows and the time.  A cell shows a string as it is and a
    number that is a safe integer with all its digits; the cells are not
    escaped, which is why the line breaks are excluded. *)
Theorem markdown_table_lines (fields : list FieldPacket) (items : list RowDataPacket)
    (elapsed : N) (kind : QueryType) :
  fields <> [] -> items <> [] ->
  (forall field, In field fields -> single_line (field_name field) = true) ->
  (forall row cell, In row items -> In cell (shown_cells fields row) ->
                    single_line cell = true) ->
  Js.split LF (formatAsMarkdown (formatResult (RowArray items None) fields elapsed) kind) =
  table_line (map field_name fields) ::
  table_line (map (fun _ => js "---") fields) ::
  map (fun row => table_line (shown_cells fields row)) items ++
  [ []; [];
    js "**Query completed:** " ++ Js.of_N (N.of_nat (List.length items)) ++
    js " row(s) returned in " ++ Js.of_N elapsed ++ js "ms";
    [] ].
Proof.
  intros Hfields Hitems Hnames Hcells.
  destruct fields as [|f fs]; [contradiction|]. destruct items as [|r rs]; [contradiction|].
  set (fields := f :: fs) in *. set (items := r :: rs) in *.
  assert (E : formatAsMarkdown (formatResult (RowArray items None) fields elapsed) kind =
              table_line (map field_name fields) ++ LF ::
              table_line (map (fun _ => js "---") fields) ++ LF ::
              List.concat (map (fun l => l ++ [LF])
                             (map (fun row => table_line (shown_cells fields row)) items)) ++
              LF :: LF ::
              (js "**Query completed:** " ++ Js.of_N (N.of_nat (List.length items)) ++
               js " row(s) returned in " ++ Js.of_N elapsed ++ js "ms") ++ LF :: []).
  { unfold formatResult, tabular, formatAsMarkdown. cbn [columns rows rowCount executionTime].
    unfold items at 1, rowArray_of at 1. cbn [map].
    fold (rowArray_of fields rs). 
    change (map (fun field => row_get r (field_name field)) fields :: rowArray_of fields rs)
      with (rowArray_of fields items).
    unfold formatMarkdownTable. unfold fields at 1, columns_of at 1, items at 1, rowArray_of at 1.
    cbn [map List.length]. rewrite !Nat2N.inj_succ.
    replace (N.succ (N.of_nat (List.length (map
      (fun field => {| col_name := field_name field;
                       col_type := getFieldTypeName (field_type_or_0 field) |}) fs))) =? 0)
      with false by (symmetry; apply N.eqb_neq, N.neq_succ_0).
    cbn [orb].
    replace (N.succ (N.of_nat (List.length (map
      (fun row => map (fun field => row_get row (field_name field)) fields) rs))) =? 0)
      with false by (symmetry; apply N.eqb_neq, N.neq_succ_0).
    rewrite !TableFacts.table_row_line. unfold columns_of, rowArray_of, shown_cells, nl.
    rewrite !map_map. rewrite <- !app_assoc. cbn [app].
    rewrite (map_ext
               (fun x => table_row (map formatCell
                  (map (fun field => row_get x (field_name field)) fields)))
               (fun x => table_line (map (fun field =>
                  formatCell (row_get x (field_name field))) fields) ++ [LF]));
      [reflexivity|].
    intros row. now rewrite TableFacts.table_row_line, map_map. }
  rewrite E. clear E.
  rewrite TableFacts.split_line.
  2:{ apply TableFacts.single_line_free, TableFacts.single_line_table_line.
      intros p Hp. apply in_map_iff in Hp as (field & <- & Hin). now apply Hnames. }
  rewrite TableFacts.split_line.
  2:{ apply TableFacts.single_line_free, TableFacts.single_line_table_line.
      intros p Hp. apply in_map_iff in Hp as (field & <- & _). reflexivity. }
  rewrite TableFacts.split_rows.
  2:{ intros l Hl. apply in_map_iff in Hl as (row & <- & Hrow).
      apply TableFacts.single_line_table_line. intros p Hp. now apply (Hcells row). }
  do 3 f_equal.
  change (Js.split LF (LF :: LF :: ?x)) with ([] :: [] :: Js.split LF x).
  rewrite TableFacts.split_line; [reflexivity|].
  apply TableFacts.single_line_free.
  now rewrite !TableFacts.single_line_app, !TableFacts.single_line_of_N.
Qed.

Lemma markdown_table_lines_witness :
  Js.split LF
    (formatAsMarkdown
       (formatResult
          (RowArray [[(js "id", CInt false 7 eq_refl); (js "name", CString (js "a|b"))];
                     [(js "id", CInt true 9007199254740991 eq_refl); (js "name", CNull)]] None)
          [{| field_name := js "id"; field_type := Some 3 |};
           {| field_name := js "name"; field_type := Some 253 |}] 12) SELECT) =
  [js "| id | name |"; js "| --- | --- |"; js "| 7 | a|b |"; js "| -9007199254740991 | *NULL* |";
   []; []; js "**Query completed:** 2 row(s) returned in 12ms"; []].
Proof.
  rewrite (markdown_table_lines
             [{| field_name := js "id"; field_type := Some 3 |};
              {| field_name := js "name"; field_type := Some 253 |}]
             [[(js "id", CInt false 7 eq_refl); (js "name", CString (js "a|b"))];
              [(js "id", CInt true 9007199254740991 eq_refl); (js "name", CNull)]] 12 SELECT).
  - reflexivity.
  - discriminate.
  - discriminate.
  - intros field [<- | [<- | []]]; reflexivity.
  - intros row cell [<- | [<- | []]] [<- | [<- | []]]; reflexivity.
Defined.
